(** * A shallow embedding of the go-acoustid inverted index ([index/db.go])

    The DB orchestrator of [src/index/db.go] is translated function by
    function.  The collaborators it calls whose code is not part of the
    sources at hand (Segment, Manifest, Snapshot, Transaction) are modelled
    from the specification; every such definition says so in its doc
    comment.  Go panics are an outcome of their own, errors are values of
    an inductive type, and the DB object is threaded as explicit state. *)

From Stdlib Require Import ZArith String.
From stdpp Require Import base gmap list pretty.

Local Open Scope Z_scope.

(* ------------------------------------------------------------------ *)
(** ** Errors (the values of Go's [error] interface used by the code)  *)
(* ------------------------------------------------------------------ *)

(** File names of the on-disk layout: [manifest.<txid>],
    [segment-<id>.data], [segment-<id>.meta.<txid>] and [write.lock]. *)
Inductive FileName :=
  | FManifest (txid : Z)
  | FSegData (segid : Z)
  | FSegMeta (segid txid : Z)
  | FWriteLock.

#[global] Instance FileName_eq_dec : EqDecision FileName.
Proof. solve_decision. Defined.

Inductive error :=
  | ErrAlreadyClosed                 (* [ErrAlreadyClosed] *)
  | ErrIO (f : FileName)             (* an I/O failure on file [f] *)
  | ErrNotFound (f : FileName)       (* a file that should exist does not *)
  | ErrNoManifest                    (* no manifest and [create] is false *)
  | ErrInvalidDocID                  (* docID 0 *)
  | ErrNoTerms                       (* empty term list *)
  | ErrUser (n : nat)                (* an error built by a caller's callback *)
  | Wrap (msg : string) (e : error). (* [errors.Wrap(e, msg)] *)

(** [errors.Cause] of github.com/pkg/errors. *)
Fixpoint Cause (e : error) : error :=
  match e with Wrap _ e' => Cause e' | _ => e end.

Inductive result (A : Type) := Ok (a : A) | Err (e : error).
Arguments Ok {A} a.
Arguments Err {A} e.

(* ------------------------------------------------------------------ *)
(** ** Items, segments and manifests                                   *)
(* ------------------------------------------------------------------ *)

(** 32-bit unsigned arithmetic, as [atomic.AddUint32] performs it. *)
Definition wrap32 (z : Z) : Z := z mod 2 ^ 32.

(** An [Item] is a [(term, docID)] pair, ordered lexicographically. *)
Definition Item := (Z * Z)%type.

Definition item_leb (a b : Item) : bool :=
  (a.1 <? b.1) || ((a.1 =? b.1) && (a.2 <=? b.2)).

Fixpoint insert_item (x : Item) (l : list Item) : list Item :=
  match l with
  | [] => [x]
  | y :: l' => if item_leb x y then x :: l else y :: insert_item x l'
  end.

Fixpoint sort_items (l : list Item) : list Item :=
  match l with [] => [] | x :: l' => insert_item x (sort_items l') end.

(** Modelled from the spec: [ItemBuffer] (Section 4.1), the in-memory
    staging buffer of [(docID, terms)] inserts; its reader yields the
    items sorted by [(term, docID)]. *)
Definition ItemBuffer := list (Z * list Z).

Definition buffer_items (buf : ItemBuffer) : list Item :=
  sort_items (flat_map (fun '(d, ts) => map (fun t => (t, d)) ts) buf).

Definition buffer_contains (buf : ItemBuffer) (d : Z) : bool :=
  existsb (fun e => e.1 =? d) buf.

(** Modelled from the spec: [Segment] (Sections 3 and 4.2).  The
    membership oracle has no false negatives, so it is folded into
    [seg_Contains]; [seg_dirty] records that the deletion set changed
    since the last metadata write. *)
Record Segment := mkSegment {
  seg_ID : Z;
  seg_UpdateID : Z;
  seg_items : list Item;
  seg_DeletedDocs : list Z;
  seg_dirty : bool
}.

Definition seg_is_deleted (s : Segment) (d : Z) : bool :=
  existsb (Z.eqb d) (seg_DeletedDocs s).

Definition seg_Contains (s : Segment) (d : Z) : bool :=
  existsb (fun it => it.2 =? d) (seg_items s).

(** [Segment.Delete]: the docID joins the deletion set (copy on write). *)
Definition seg_Delete (d : Z) (s : Segment) : Segment :=
  if seg_is_deleted s d then s
  else mkSegment (seg_ID s) (seg_UpdateID s) (seg_items s)
         (d :: seg_DeletedDocs s) true.

(** [segment.fileNames()]: the data file and the current metadata file. *)
Definition seg_fileNames (s : Segment) : list FileName :=
  [FSegData (seg_ID s); FSegMeta (seg_ID s) (seg_UpdateID s)].

(** Modelled from the spec: [Manifest] (Sections 3 and 4.3); the
    aggregate counters and the checksum are derived data and omitted. *)
Record Manifest := mkManifest {
  m_ID : Z;
  m_Segments : list Segment
}.

Definition set_ID (id : Z) (m : Manifest) : Manifest := mkManifest id (m_Segments m).

Definition manifest_fileNames (m : Manifest) : list FileName :=
  flat_map seg_fileNames (m_Segments m).

(* ------------------------------------------------------------------ *)
(** ** The file system ([vfs.FileSystem])                              *)
(* ------------------------------------------------------------------ *)

(** What a file holds: a manifest lists [(segment id, UpdateID)] pairs,
    a data file the sorted items, a metadata file the deletion set. *)
Inductive Content :=
  | CManifest (segs : list (Z * Z))
  | CData (items : list Item)
  | CMeta (deleted : list Z).

(** A directory: its files, newest first, and the set of names whose
    creation fails with an I/O error (the environment's faults). *)
Record FS := mkFS {
  fs_files : list (FileName * Content);
  fs_fails : FileName -> bool
}.

Fixpoint lookup_file (f : FileName) (l : list (FileName * Content)) : option Content :=
  match l with
  | [] => None
  | (g, c) :: l' => if decide (f = g) then Some c else lookup_file f l'
  end.

Definition fs_read (fs : FS) (f : FileName) : option Content := lookup_file f (fs_files fs).

Definition drop_file (f : FileName) (l : list (FileName * Content)) : list (FileName * Content) :=
  List.filter (fun e => negb (bool_decide (e.1 = f))) l.

(** [CreateAtomicFile] + [Commit]: the file is there in full, or the
    call fails and nothing is written. *)
Definition fs_write (f : FileName) (c : Content) (fs : FS) : result FS :=
  if fs_fails fs f then Err (ErrIO f)
  else Ok (mkFS ((f, c) :: drop_file f (fs_files fs)) (fs_fails fs)).

(** [fs.Remove]. *)
Definition fs_remove (f : FileName) (fs : FS) : FS :=
  mkFS (drop_file f (fs_files fs)) (fs_fails fs).

(** [fs.Lock("write.lock")]. *)
Definition fs_lock (fs : FS) : result unit :=
  if fs_fails fs FWriteLock then Err (ErrIO FWriteLock) else Ok tt.

(* ------------------------------------------------------------------ *)
(** ** The [DB] object                                                 *)
(* ------------------------------------------------------------------ *)

Record Options := mkOptions {
  EnableAutoCompact : bool;
  AutoCompactInterval : Z   (* a [time.Duration], in nanoseconds *)
}.

(** [DefaultOptions]: auto-compaction off, every 10 seconds. *)
Definition DefaultOptions : Options := mkOptions false (10 * 1000000000).

(** The fields of [type DB struct].  A channel is represented by whether
    it has been closed; [mu] is implicit, every operation below runs as
    one atomic step of the sequential model; [refs] is [map[string]int]
    with missing keys read as 0. *)
Record DB := mkDB {
  db_fs : FS;
  db_wlock : bool;
  db_txid : Z;
  db_manifest : Manifest;
  db_closed : bool;
  db_closing : bool;          (* [closing] has been closed *)
  db_mergeRequests : bool;    (* [mergeRequests] has been closed *)
  db_orphanedFiles : bool;    (* [orphanedFiles] has been closed *)
  db_numSnapshots : Z;
  db_numTransactions : Z;
  db_refs : FileName -> Z;
  db_opts : Options
}.

Definition set_fs (x : FS) (d : DB) : DB :=
  mkDB x (db_wlock d) (db_txid d) (db_manifest d) (db_closed d) (db_closing d)
    (db_mergeRequests d) (db_orphanedFiles d) (db_numSnapshots d)
    (db_numTransactions d) (db_refs d) (db_opts d).
Definition set_wlock (x : bool) (d : DB) : DB :=
  mkDB (db_fs d) x (db_txid d) (db_manifest d) (db_closed d) (db_closing d)
    (db_mergeRequests d) (db_orphanedFiles d) (db_numSnapshots d)
    (db_numTransactions d) (db_refs d) (db_opts d).
Definition set_txid (x : Z) (d : DB) : DB :=
  mkDB (db_fs d) (db_wlock d) x (db_manifest d) (db_closed d) (db_closing d)
    (db_mergeRequests d) (db_orphanedFiles d) (db_numSnapshots d)
    (db_numTransactions d) (db_refs d) (db_opts d).
Definition set_manifest (x : Manifest) (d : DB) : DB :=
  mkDB (db_fs d) (db_wlock d) (db_txid d) x (db_closed d) (db_closing d)
    (db_mergeRequests d) (db_orphanedFiles d) (db_numSnapshots d)
    (db_numTransactions d) (db_refs d) (db_opts d).
Definition set_closed (x : bool) (d : DB) : DB :=
  mkDB (db_fs d) (db_wlock d) (db_txid d) (db_manifest d) x (db_closing d)
    (db_mergeRequests d) (db_orphanedFiles d) (db_numSnapshots d)
    (db_numTransactions d) (db_refs d) (db_opts d).
Definition set_closing (x : bool) (d : DB) : DB :=
  mkDB (db_fs d) (db_wlock d) (db_txid d) (db_manifest d) (db_closed d) x
    (db_mergeRequests d) (db_orphanedFiles d) (db_numSnapshots d)
    (db_numTransactions d) (db_refs d) (db_opts d).
Definition set_mergeRequests (x : bool) (d : DB) : DB :=
  mkDB (db_fs d) (db_wlock d) (db_txid d) (db_manifest d) (db_closed d) (db_closing d)
    x (db_orphanedFiles d) (db_numSnapshots d)
    (db_numTransactions d) (db_refs d) (db_opts d).
Definition set_orphanedFiles (x : bool) (d : DB) : DB :=
  mkDB (db_fs d) (db_wlock d) (db_txid d) (db_manifest d) (db_closed d) (db_closing d)
    (db_mergeRequests d) x (db_numSnapshots d)
    (db_numTransactions d) (db_refs d) (db_opts d).
Definition set_numSnapshots (x : Z) (d : DB) : DB :=
  mkDB (db_fs d) (db_wlock d) (db_txid d) (db_manifest d) (db_closed d) (db_closing d)
    (db_mergeRequests d) (db_orphanedFiles d) x
    (db_numTransactions d) (db_refs d) (db_opts d).
Definition set_numTransactions (x : Z) (d : DB) : DB :=
  mkDB (db_fs d) (db_wlock d) (db_txid d) (db_manifest d) (db_closed d) (db_closing d)
    (db_mergeRequests d) (db_orphanedFiles d) (db_numSnapshots d)
    x (db_refs d) (db_opts d).
Definition set_refs (x : FileName -> Z) (d : DB) : DB :=
  mkDB (db_fs d) (db_wlock d) (db_txid d) (db_manifest d) (db_closed d) (db_closing d)
    (db_mergeRequests d) (db_orphanedFiles d) (db_numSnapshots d)
    (db_numTransactions d) x (db_opts d).

(* ------------------------------------------------------------------ *)
(** ** The state, error and panic monad                               *)
(* ------------------------------------------------------------------ *)

(** A Go call on the DB either returns (a value or an error, and the
    state it leaves), panics, or blocks forever (a goroutine waiting on a
    lock it holds itself). *)
Inductive outcome (A : Type) := Done (r : result A) (db : DB) | Panic | Deadlock.
Arguments Done {A} r db.
Arguments Panic {A}.
Arguments Deadlock {A}.

Definition M (A : Type) : Type := DB -> outcome A.

#[global] Instance M_ret : MRet M := fun A a db => Done (Ok a) db.
#[global] Instance M_bind : MBind M := fun A B k m db =>
  match m db with
  | Done (Ok a) db' => k a db'
  | Done (Err e) db' => Done (Err e) db'
  | Panic => Panic
  | Deadlock => Deadlock
  end.

Definition throw {A} (e : error) : M A := fun db => Done (Err e) db.
Definition panic {A} : M A := fun _ => Panic.
Definition gets {A} (f : DB -> A) : M A := fun db => Done (Ok (f db)) db.
Definition modify (f : DB -> DB) : M unit := fun db => Done (Ok tt) (f db).

(** [errors.Wrap(err, msg)] on the error of a call, if any. *)
Definition wrap_err {A} (msg : string) (m : M A) : M A := fun db =>
  match m db with
  | Done (Err e) db' => Done (Err (Wrap msg e)) db'
  | o => o
  end.

(** Run a call and hand its result to the continuation, error or not
    (the shape of [err := f(); ...; return err]). *)
Definition attempt {A} (m : M A) : M (result A) := fun db =>
  match m db with
  | Done r db' => Done (Ok r) db'
  | Panic => Panic
  | Deadlock => Deadlock
  end.

Definition lift {A} (r : result A) : M A := fun db => Done r db.

(** A write to the DB's file system. *)
Definition write_file (f : FileName) (c : Content) : M unit := fun db =>
  match fs_write f c (db_fs db) with
  | Ok fs' => Done (Ok tt) (set_fs fs' db)
  | Err e => Done (Err e) db
  end.

(** [atomic.AddUint32(&db.txid, 1)]. *)
Definition next_txid : M Z := fun db =>
  let t := wrap32 (db_txid db + 1) in Done (Ok t) (set_txid t db).

(* ------------------------------------------------------------------ *)
(** ** File reference counting ([incFileRefs], [decFileRefs])          *)
(* ------------------------------------------------------------------ *)

Definition bump_ref (delta : Z) (f : FileName) (refs : FileName -> Z) : FileName -> Z :=
  fun g => if decide (g = f) then refs g + delta else refs g.

(** [for ... { db.refs[name]++ }]. *)
Definition add_refs (names : list FileName) (refs : FileName -> Z) : FileName -> Z :=
  fold_left (fun r f => bump_ref 1 f r) names refs.

Definition incFileRefs (m : Manifest) : M unit :=
  modify (fun db => set_refs (add_refs (manifest_fileNames m) (db_refs db)) db).

(** [db.orphanedFiles <- name]: a send on the closed channel panics.
    The [deleteOrphanedFiles] task is taken to consume the name at once
    and remove the file. *)
Definition send_orphan (f : FileName) : M unit := fun db =>
  if db_orphanedFiles db then Panic
  else Done (Ok tt) (set_fs (fs_remove f (db_fs db)) db).

Fixpoint dec_names (names : list FileName) : M unit :=
  match names with
  | [] => mret tt
  | f :: names' =>
      modify (fun db => set_refs (bump_ref (-1) f (db_refs db)) db) ;;
      r ← gets (fun db => db_refs db f);
      (if decide (r <= 0) then send_orphan f else mret tt) ;;
      dec_names names'
  end.

Definition decFileRefs (m : Manifest) : M unit := dec_names (manifest_fileNames m).

(* ------------------------------------------------------------------ *)
(** ** Snapshots and search                                            *)
(* ------------------------------------------------------------------ *)

(** Modelled from the spec: [Snapshot] (Section 4.6), a read view pinned
    to one manifest. *)
Record Snapshot := mkSnapshot { snap_manifest : Manifest }.

(** [db.newSnapshot()]. *)
Definition newSnapshot : M Snapshot :=
  m ← gets db_manifest;
  incFileRefs m ;;
  modify (fun db => set_numSnapshots (db_numSnapshots db + 1) db) ;;
  mret (mkSnapshot m).

(** [db.closeSnapshot(snapshot)], the snapshot's [closeFn]. *)
Definition closeSnapshot (s : Snapshot) : M unit :=
  decFileRefs (snap_manifest s) ;;
  modify (fun db => set_numSnapshots (db_numSnapshots db - 1) db).

(** [snapshot.Close()] called by a goroutine that holds [db.mu.Lock()]:
    [closeSnapshot] starts with [db.mu.RLock()], which waits until the
    writer unlocks; Go's [sync.RWMutex] is not reentrant, so the call
    never returns. *)
Definition closeSnapshot_locked (s : Snapshot) : M unit := fun _ => Deadlock.

(** Sorted, duplicate-free query terms. *)
Fixpoint insert_term (x : Z) (l : list Z) : list Z :=
  match l with
  | [] => [x]
  | y :: l' => if x <? y then x :: l else if x =? y then l else y :: insert_term x l'
  end.

Definition sort_dedup (q : list Z) : list Z := fold_right insert_term [] q.

(** Modelled from the spec: the search within a segment (Section 4.2):
    for each query term, every item with that term whose docID is not
    deleted adds one to the docID's counter. *)
Definition count_hit (acc : gmap Z Z) (d : Z) : gmap Z Z :=
  <[d := default 0 (acc !! d) + 1]> acc.

Definition seg_search_term (s : Segment) (q : Z) (acc : gmap Z Z) : gmap Z Z :=
  fold_left (fun acc (it : Item) =>
    if (it.1 =? q) && negb (seg_is_deleted s it.2) then count_hit acc it.2 else acc)
    (seg_items s) acc.

Definition seg_search (s : Segment) (q : list Z) (acc : gmap Z Z) : gmap Z Z :=
  fold_left (fun acc t => seg_search_term s t acc) q acc.

(** Modelled from the spec: [Snapshot.Search] (Section 4.6). *)
Definition search_manifest (m : Manifest) (query : list Z) : gmap Z Z :=
  let q := sort_dedup query in
  fold_left (fun acc s => seg_search s q acc) (m_Segments m) ∅.

Definition Snapshot_Search (s : Snapshot) (query : list Z) : result (gmap Z Z) :=
  Ok (search_manifest (snap_manifest s) query).

(** [DB.Search]: [defer snapshot.Close()] runs after the search. *)
Definition Search (query : list Z) : M (gmap Z Z) :=
  snap ← newSnapshot;
  let r := Snapshot_Search snap query in
  closeSnapshot snap ;;
  lift r.

(** [DB.Snapshot]. *)
Definition DB_Snapshot : M Snapshot := newSnapshot.

(* ------------------------------------------------------------------ *)
(** ** Transactions                                                    *)
(* ------------------------------------------------------------------ *)

(** Modelled from the spec: [Transaction] (Section 4.4): a base snapshot,
    a staging buffer and the docIDs to tombstone on commit. *)
Record Txn := mkTxn {
  tx_snapshot : Snapshot;
  tx_buf : ItemBuffer;
  tx_pending : list Z;
  tx_closed : bool
}.

Definition snapshot_contains (s : Snapshot) (d : Z) : bool :=
  existsb (fun seg => seg_Contains seg d && negb (seg_is_deleted seg d))
    (m_Segments (snap_manifest s)).

(** Modelled from the spec: [Transaction.Delete]. *)
Definition txn_Delete (d : Z) (tx : Txn) : result Txn :=
  if tx_closed tx then Err ErrAlreadyClosed
  else Ok (mkTxn (tx_snapshot tx) (List.filter (fun e => negb (e.1 =? d)) (tx_buf tx))
             (d :: tx_pending tx) false).

(** Modelled from the spec: [Transaction.Add]; adding a docID that exists
    in the base snapshot or in the buffer is Delete-then-Insert. *)
Definition txn_Add (d : Z) (ts : list Z) (tx : Txn) : result Txn :=
  if tx_closed tx then Err ErrAlreadyClosed
  else if d =? 0 then Err ErrInvalidDocID
  else if bool_decide (ts = []) then Err ErrNoTerms
  else
    let tx' := if snapshot_contains (tx_snapshot tx) d || buffer_contains (tx_buf tx) d
               then mkTxn (tx_snapshot tx) (List.filter (fun e => negb (e.1 =? d)) (tx_buf tx))
                      (d :: tx_pending tx) false
               else tx in
    Ok (mkTxn (tx_snapshot tx') (tx_buf tx' ++ [(d, ts)]) (tx_pending tx') false).

(** Modelled from the spec: [Transaction.Import] of pre-sorted items. *)
Definition txn_Import (items : list Item) (tx : Txn) : result Txn :=
  if tx_closed tx then Err ErrAlreadyClosed
  else Ok (mkTxn (tx_snapshot tx) (tx_buf tx ++ map (fun it => (it.2, [it.1])) items)
             (List.filter (snapshot_contains (tx_snapshot tx)) (map snd items) ++ tx_pending tx)
             false).

(* ------------------------------------------------------------------ *)
(** ** Segment creation and the commit protocol                        *)
(* ------------------------------------------------------------------ *)

(** Modelled from the spec: [CreateSegment] (Section 4.2): writes the
    data file and the first metadata file, named by the segment id. *)
Definition CreateSegment (id : Z) (items : list Item) : M Segment :=
  write_file (FSegData id) (CData items) ;;
  write_file (FSegMeta id id) (CMeta []) ;;
  mret (mkSegment id id items [] false).

(** [db.createSegment(input)]. *)
Definition createSegment (items : list Item) : M Segment :=
  id ← next_txid;
  CreateSegment id items.

(** Modelled from the spec: [Segment.SaveUpdate(fs, txid)]: a segment
    whose deletion set changed gets a metadata file named by [txid]. *)
Definition seg_SaveUpdate (txid : Z) (s : Segment) : M Segment :=
  if seg_dirty s then
    write_file (FSegMeta (seg_ID s) txid) (CMeta (seg_DeletedDocs s)) ;;
    mret (mkSegment (seg_ID s) txid (seg_items s) (seg_DeletedDocs s) false)
  else mret s.

(** [for _, segment := range manifest.Segments { err := segment.SaveUpdate(...) }]
    (the call updates the segment in place). *)
Fixpoint save_updates (txid : Z) (segs : list Segment) : M (list Segment) :=
  match segs with
  | [] => mret []
  | s :: segs' =>
      s' ← wrap_err "segment update failed"%string (seg_SaveUpdate txid s);
      segs'' ← save_updates txid segs';
      mret (s' :: segs'')
  end.

(** Modelled from the spec: [Manifest.Save(fs)]. *)
Definition manifest_Save (m : Manifest) : M unit :=
  write_file (FManifest (m_ID m))
    (CManifest (map (fun s => (seg_ID s, seg_UpdateID s)) (m_Segments m))).

(** [db.commit(prepareCommit)]. *)
Definition commit (prepareCommit : Manifest -> M Manifest) : M unit :=
  closed ← gets db_closed;
  if (closed : bool) then throw ErrAlreadyClosed else
  base ← gets db_manifest;
  manifest ← wrap_err "commit preparation failed"%string (prepareCommit base);
  id ← next_txid;
  segs ← save_updates id (m_Segments manifest);
  let manifest := mkManifest id segs in
  wrap_err "save failed"%string (manifest_Save manifest) ;;
  incFileRefs manifest ;;
  decFileRefs base ;;
  modify (set_manifest manifest).

(** Modelled from the spec: tombstoning a docID in every segment that
    contains it (Section 4.5, step 5). *)
Definition tombstone (segs : list Segment) (d : Z) : list Segment :=
  map (fun s => if seg_Contains s d then seg_Delete d s else s) segs.

(** Modelled from the spec: the commit callback of [Transaction.Commit]
    (Section 4.5, steps 3 to 5): re-base on the current manifest, write
    the staged items as a new segment, tombstone the pending deletes and
    the new segment's docIDs in the older segments. *)
Definition txn_prepareCommit (tx : Txn) (base : Manifest) : M Manifest :=
  let items := buffer_items (tx_buf tx) in
  match items with
  | [] => mret (mkManifest (m_ID base) (fold_left tombstone (tx_pending tx) (m_Segments base)))
  | _ :: _ =>
      seg ← createSegment items;
      let old := fold_left tombstone (tx_pending tx ++ map snd items) (m_Segments base) in
      mret (mkManifest (m_ID base) (old ++ [seg]))
  end.

(** Modelled from the spec: [Transaction.Commit]. *)
Definition txn_Commit (tx : Txn) : M unit :=
  if tx_closed tx then throw ErrAlreadyClosed else commit (txn_prepareCommit tx).

(** [db.closeTransaction(tx)], the transaction's [closeFn]. *)
Definition closeTransaction : M unit :=
  modify (fun db => set_numTransactions (db_numTransactions db - 1) db).

(** Modelled from the spec: [Transaction.Close]: releases the snapshot
    and calls [closeFn]; a second call does nothing. *)
Definition txn_Close (tx : Txn) : M Txn :=
  if tx_closed tx then mret tx else
  closeSnapshot (tx_snapshot tx) ;;
  closeTransaction ;;
  mret (mkTxn (tx_snapshot tx) (tx_buf tx) (tx_pending tx) true).

(** [DB.Transaction]; the body after [newSnapshot] runs under
    [db.mu.Lock()], released by the deferred [Unlock] on return, so its
    two [snapshot.Close()] calls are made with the lock held. *)
Definition Transaction : M Txn :=
  snap ← newSnapshot;
  closed ← gets db_closed;
  if (closed : bool) then closeSnapshot_locked snap ;; throw ErrAlreadyClosed else
  wl ← gets db_wlock;
  (if (wl : bool) then mret tt else
     fs ← gets db_fs;
     match fs_lock fs with
     | Err e => closeSnapshot_locked snap ;; throw (Wrap "unable to acquire write lock"%string e)
     | Ok _ => modify (set_wlock true)
     end) ;;
  modify (fun db => set_numTransactions (db_numTransactions db + 1) db) ;;
  mret (mkTxn snap [] [] false).

(** A callback of [RunInTransaction]: it works on the batch and returns
    the batch's new state and its error value. *)
Definition BatchFn := Txn -> Txn * result unit.

(** [DB.RunInTransaction(fn)]; [defer txn.Close()] runs on every return
    path after the transaction is created. *)
Definition RunInTransaction (fn : BatchFn) : M unit :=
  txn ← Transaction;
  let '(txn', r) := fn txn in
  match r with
  | Err e => txn_Close txn' ;; throw e
  | Ok _ =>
      res ← attempt (txn_Commit txn');
      txn_Close txn' ;;
      lift res
  end.

(** A callback that makes one batch call and returns its error. *)
Definition batch_call (f : Txn -> result Txn) : BatchFn := fun tx =>
  match f tx with Ok tx' => (tx', Ok tt) | Err e => (tx, Err e) end.

Definition DB_Add (d : Z) (ts : list Z) : M unit := RunInTransaction (batch_call (txn_Add d ts)).
Definition DB_Delete (d : Z) : M unit := RunInTransaction (batch_call (txn_Delete d)).
Definition DB_Import (items : list Item) : M unit := RunInTransaction (batch_call (txn_Import items)).

(** [DB.Truncate]: removes the segments of a snapshot taken first. *)
Definition Truncate : M unit :=
  snap ← newSnapshot;
  r ← attempt (commit (fun base =>
         mret (mkManifest (m_ID base)
           (List.filter (fun s => negb (existsb (fun s' => seg_ID s' =? seg_ID s)
                                              (m_Segments (snap_manifest snap))))
              (m_Segments base)))));
  closeSnapshot snap ;;
  lift r.

(* ------------------------------------------------------------------ *)
(** ** Opening and closing                                             *)
(* ------------------------------------------------------------------ *)

Definition manifest_ids (l : list (FileName * Content)) : list Z :=
  flat_map (fun e => match e.1 with FManifest i => [i] | _ => [] end) l.

Definition max_id (l : list Z) : option Z :=
  fold_left (fun acc i => match acc with None => Some i | Some j => Some (Z.max j i) end) l None.

(** Modelled from the spec: [Manifest.Load(fs, create)] (Section 4.3):
    the manifest file with the highest id wins; with none, an empty
    manifest with [ID = 0] if [create], an error otherwise.  The segment
    descriptors it yields are filled in by [Segment.Open]. *)
Definition manifest_Load (fs : FS) (create : bool) : result Manifest :=
  match max_id (manifest_ids (fs_files fs)) with
  | None => if create then Ok (mkManifest 0 []) else Err ErrNoManifest
  | Some id =>
      match fs_read fs (FManifest id) with
      | Some (CManifest descs) =>
          Ok (mkManifest id (map (fun p => mkSegment p.1 p.2 [] [] false) descs))
      | _ => Err (ErrNotFound (FManifest id))
      end
  end.

(** Modelled from the spec: [Segment.Open(fs)]: reads the data file and
    the metadata file of the segment's [UpdateID]. *)
Definition seg_Open (fs : FS) (s : Segment) : result Segment :=
  match fs_read fs (FSegData (seg_ID s)) with
  | Some (CData items) =>
      match fs_read fs (FSegMeta (seg_ID s) (seg_UpdateID s)) with
      | Some (CMeta del) => Ok (mkSegment (seg_ID s) (seg_UpdateID s) items del false)
      | _ => Err (ErrNotFound (FSegMeta (seg_ID s) (seg_UpdateID s)))
      end
  | _ => Err (ErrNotFound (FSegData (seg_ID s)))
  end.

(** [for _, segment := range manifest.Segments { err = segment.Open(fs) ... }],
    each error wrapped by [errors.Wrapf(err, "failed to open segment %v", segment.ID)]. *)
Fixpoint open_segments (fs : FS) (segs : list Segment) : result (list Segment) :=
  match segs with
  | [] => Ok []
  | s :: segs' =>
      match seg_Open fs s with
      | Err e => Err (Wrap ("failed to open segment " +:+ pretty (seg_ID s))%string e)
      | Ok s' => match open_segments fs segs' with Err e => Err e | Ok r => Ok (s' :: r) end
      end
  end.

(** [db.init(manifest)]: the background tasks are started, every channel
    is open, the file references of the manifest are counted. *)
Definition init (fs : FS) (opts : Options) (m : Manifest) : DB :=
  mkDB fs false (m_ID m) m false false false false 0 0
    (add_refs (manifest_fileNames m) (fun _ => 0)) opts.

(** The loading half of [Open]: [manifest.Load] and the [segment.Open]
    loop. *)
Definition load_full (fs : FS) (create : bool) : result Manifest :=
  match manifest_Load fs create with
  | Err e => Err (Wrap "failed to open the manifest"%string e)
  | Ok m =>
      match open_segments fs (m_Segments m) with
      | Err e => Err e
      | Ok segs => Ok (mkManifest (m_ID m) segs)
      end
  end.

(** [Open(fs, create, opts)]; [None] stands for nil options. *)
Definition Open (fs : FS) (create : bool) (opts : option Options) : result DB :=
  let opts := default DefaultOptions opts in
  match load_full fs create with
  | Err e => Err e
  | Ok m => Ok (init fs opts m)
  end.

(** [close(ch)]: closing a closed channel panics. *)
Definition close_chan (is_closed : DB -> bool) (mark : bool -> DB -> DB) : M unit := fun db =>
  if is_closed db then Panic else Done (Ok tt) (mark true db).

(** [DB.Close]; [db.bg.Wait()] returns since every task's channel is
    closed. *)
Definition Close : M unit :=
  close_chan db_closing set_closing ;;
  close_chan db_mergeRequests set_mergeRequests ;;
  close_chan db_orphanedFiles set_orphanedFiles ;;
  modify (fun db => if db_wlock db then set_wlock false db else db) ;;
  modify (set_closed true).

(** [DB.Compact]: a request is sent to the [runMerges] task, which runs
    [runOneMerge] (the merge policy, a parameter here) and replies with
    its error; a send on the closed channel panics. *)
Definition Compact (runOneMerge : M unit) : M unit := fun db =>
  if db_mergeRequests db then Panic else runOneMerge db.

(* ------------------------------------------------------------------ *)
(** ** The [autoCompact] task                                          *)
(* ------------------------------------------------------------------ *)

(** [time.Duration] is an int64: two's complement wrap-around. *)
Definition wrap64 (z : Z) : Z := (z + 2 ^ 63) mod 2 ^ 64 - 2 ^ 63.

(** What the [select] of the loop receives: a tick of the ticker, after
    which [db.Compact()] returns the given error (if any), or the close
    of [db.closing]. *)
Inductive acEvent := Tick (compact_err : option error) | Closing.

Record acState := mkAcState {
  ac_interval : Z;      (* [interval], the ticker's period *)
  ac_requests : nat;    (* compaction requests sent so far *)
  ac_stopped : bool;    (* the task has returned *)
  ac_panicked : bool    (* [time.NewTicker] panicked, which ends the program *)
}.

(** [time.NewTicker(d)] panics with "non-positive interval for NewTicker"
    when [d <= 0]. *)
Definition newTicker_panics (d : Z) : bool := d <=? 0.

(** The task's start: [interval := db.opts.AutoCompactInterval] and
    [ticker := time.NewTicker(interval)]. *)
Definition autoCompact_start (opts : Options) : acState :=
  mkAcState (AutoCompactInterval opts) 0 false (newTicker_panics (AutoCompactInterval opts)).

(** One iteration of the [for]/[select] loop of [autoCompact]; Go's
    integer division truncates toward zero ([Z.quot]); after a failure
    the ticker is replaced by [time.NewTicker(interval)]. *)
Definition autoCompact_step (st : acState) (ev : acEvent) : acState :=
  if ac_stopped st || ac_panicked st then st else
  match ev with
  | Tick None => mkAcState (ac_interval st) (S (ac_requests st)) false false
  | Tick (Some _) =>
      let interval := wrap64 (ac_interval st + Z.quot (ac_interval st) 2) in
      mkAcState interval (S (ac_requests st)) false (newTicker_panics interval)
  | Closing => mkAcState (ac_interval st) (ac_requests st) true false
  end.

Definition autoCompact_run (st : acState) (evs : list acEvent) : acState :=
  fold_left autoCompact_step evs st.

(* ------------------------------------------------------------------ *)
(** ** Scenarios and reference answers                                 *)
(* ------------------------------------------------------------------ *)

(** An empty in-memory directory ([vfs.CreateMemDir()]) without faults. *)
Definition empty_fs : FS := mkFS [] (fun _ => false).

Definition result_of {A} (o : outcome A) : option (result A) :=
  match o with Done r _ => Some r | Panic | Deadlock => None end.

(** [DB.Add] calls one after the other, each one's error ignored. *)
Fixpoint run_adds (ops : list (Z * list Z)) : M unit :=
  match ops with
  | [] => mret tt
  | (d, ts) :: ops' => attempt (DB_Add d ts) ;; run_adds ops'
  end.

(** The index after one writer alone replaced the terms of docID [d]
    by [ts] on top of [m]: [d] tombstoned wherever it is, and one more
    segment holding the items of [d] with [ts]. *)
Definition replace_doc (m : Manifest) (d : Z) (ts : list Z) : Manifest :=
  mkManifest (m_ID m)
    (tombstone (m_Segments m) d ++ [mkSegment 0 0 (buffer_items [(d, ts)]) [] false]).

(** The first steps of [TestDB]. *)
Definition add_search : M (gmap Z Z) :=
  DB_Add 1234 [0xdcfc2563; 0xdcbc2421; 0xddbc3420; 0xdd9c1530; 0xdf9c6d40;
               0x4f4ce540; 0x4f0ea5c0] ;;
  DB_Add 5678 [123; 53] ;;
  Search [1; 2; 0xdcfc2563; 0xdcbc2421; 0xdeadbeef; 0xffffffff].

(** The scenario of [TestDB_Commit_ConcurrentInserts]. *)
Definition concurrent_inserts : M (gmap Z Z * gmap Z Z) :=
  tx1 ← Transaction;
  tx1 ← lift (txn_Add 1 [1] tx1);
  tx2 ← Transaction;
  tx2 ← lift (txn_Add 1 [2] tx2);
  txn_Commit tx1 ;;
  txn_Commit tx2 ;;
  a ← Search [1];
  b ← Search [2];
  mret (a, b).

(** The state after a step, the starting state when the step does not
    return. *)
Definition state_of {A} (o : outcome A) (db : DB) : DB :=
  match o with Done _ db' => db' | Panic | Deadlock => db end.

(** A freshly created DB, as [Open] on an empty directory builds it. *)
Definition fresh_db : DB := init empty_fs DefaultOptions (mkManifest 0 []).

(** The two transactions of [TestDB_Commit_ConcurrentInserts], both
    opened on the fresh DB, and the states after their commits. *)
Definition ci_snap : Snapshot := mkSnapshot (mkManifest 0 []).
Definition ci_tx1 : Txn := mkTxn ci_snap [(1, [1])] [] false.
Definition ci_tx2 : Txn := mkTxn ci_snap [(1, [2])] [] false.
Definition ci_db1 : DB := state_of (txn_Commit ci_tx1 fresh_db) fresh_db.
Definition ci_db2 : DB := state_of (txn_Commit ci_tx2 ci_db1) ci_db1.

(** An I/O error on a file the directory refuses to create. *)
Definition io_err (fails : FileName -> bool) (e : error) : Prop :=
  exists f, e = ErrIO f /\ fails f = true.

(** A step that leaves the published manifest and the directory's faults
    alone, and whose errors satisfy [P] (of the directory's faults). *)
Definition io_safe {A} (P : (FileName -> bool) -> error -> Prop) (m : M A) : Prop :=
  forall db r db', m db = Done r db' ->
    db_manifest db' = db_manifest db /\ fs_fails (db_fs db') = fs_fails (db_fs db) /\
    forall e, r = Err e -> P (fs_fails (db_fs db)) e.

(** One segment's share of [tombstone]. *)
Definition tomb1 (d : Z) (s : Segment) : Segment :=
  if seg_Contains s d then seg_Delete d s else s.

(** Two segments answer every search alike when they hold the same items
    and the same deleted docIDs. *)
Definition seg_equiv (s s' : Segment) : Prop :=
  seg_items s = seg_items s' /\ forall x, seg_is_deleted s x = seg_is_deleted s' x.

(** File contents are compared when reads are. *)
#[global] Instance Content_eq_dec : EqDecision Content.
Proof. solve_decision. Defined.

(** How many times [g] occurs in [l]: its share of the reference counts. *)
Definition cnt (g : FileName) (l : list FileName) : Z :=
  Z.of_nat (length (List.filter (fun f => bool_decide (f = g)) l)).

(** A clean segment whose data file and metadata file hold exactly its
    items and deletion set. *)
Definition stored (fs : FS) (s : Segment) : Prop :=
  fs_read fs (FSegData (seg_ID s)) = Some (CData (seg_items s)) /\
  fs_read fs (FSegMeta (seg_ID s) (seg_UpdateID s)) = Some (CMeta (seg_DeletedDocs s)) /\
  seg_dirty s = false.

(** Segment files named by an id above [ts]: the only names a step that
    starts at transaction id [ts] may create. *)
Definition fresh_seg (ts : Z) (f : FileName) : Prop :=
  match f with
  | FSegData i => ts < i
  | FSegMeta _ j => ts < j
  | _ => False
  end.

(** [fs'] differs from [fs] on fresh segment files only. *)
Definition fs_frame (ts : Z) (fs fs' : FS) : Prop :=
  fs_fails fs' = fs_fails fs /\ forall f, ~ fresh_seg ts f -> fs_read fs' f = fs_read fs f.

(** The data file of a segment holds its items. *)
Definition stored_data (fs : FS) (s : Segment) : Prop :=
  fs_read fs (FSegData (seg_ID s)) = Some (CData (seg_items s)).

(** The segments a commit starts from: data stored, clean ones fully
    stored, ids not above [t], distinct ids. *)
Definition pre_ok (fs : FS) (t : Z) (segs : list Segment) : Prop :=
  Forall (fun s => stored_data fs s /\ (seg_dirty s = false -> stored fs s) /\
                   seg_ID s <= t /\ seg_UpdateID s <= t) segs /\
  NoDup (map seg_ID segs).

(** The segments of a published manifest: all stored, ids not above
    [t], distinct ids. *)
Definition post_ok (fs : FS) (t : Z) (segs : list Segment) : Prop :=
  Forall (fun s => stored fs s /\ seg_ID s <= t /\ seg_UpdateID s <= t) segs /\
  NoDup (map seg_ID segs).

(** [db'] is [db] with another directory and another [txid]. *)
Definition only_fs_txid (db db' : DB) : Prop :=
  db' = set_fs (db_fs db') (set_txid (db_txid db') db).

(** The segment descriptors a manifest file records. *)
Definition manifest_descs (m : Manifest) : list (Z * Z) :=
  map (fun s => (seg_ID s, seg_UpdateID s)) (m_Segments m).

(** The invariant of an open DB: the published manifest is the one a
    reload finds (the manifest file of the highest id, or none at all
    for a created empty index), its segments are stored, and the
    reference counts are [X] (open snapshots) plus the manifest's files. *)
Definition InvX (c : bool) (X : FileName -> Z) (db : DB) : Prop :=
  db_closed db = false /\ db_orphanedFiles db = false /\
  0 <= m_ID (db_manifest db) <= db_txid db /\
  post_ok (db_fs db) (db_txid db) (m_Segments (db_manifest db)) /\
  (forall i, is_Some (fs_read (db_fs db) (FManifest i)) -> i <= m_ID (db_manifest db)) /\
  (fs_read (db_fs db) (FManifest (m_ID (db_manifest db))) =
     Some (CManifest (manifest_descs (db_manifest db))) \/
   (c = true /\ db_manifest db = mkManifest 0 [] /\
    forall i, fs_read (db_fs db) (FManifest i) = None)) /\
  (forall g, db_refs db g = X g + cnt g (manifest_fileNames (db_manifest db))).

(** The scenario of [TestDB_Add]: docID 1 added twice, then the DB
    closed and the directory reopened. *)
Definition rt_ops : list (Z * list Z) := [(1, [7; 8; 9]); (1, [3; 4; 5])].
Definition rt_dbn : DB := state_of (run_adds rt_ops fresh_db) fresh_db.
Definition rt_dbc : DB := state_of (Close rt_dbn) rt_dbn.

(** A directory whose last manifest has the largest [uint32] id. *)
Definition wrap_fs : FS := mkFS [(FManifest (2 ^ 32 - 1), CManifest [])] (fun _ => false).
Definition wrap_db0 : DB := init wrap_fs DefaultOptions (mkManifest (2 ^ 32 - 1) []).
Definition wrap_dbn : DB := state_of (run_adds [(1, [7])] wrap_db0) wrap_db0.
Definition wrap_dbc : DB := state_of (Close wrap_dbn) wrap_dbn.
Definition wrap_reopened : DB := init (db_fs wrap_dbc) DefaultOptions (mkManifest (2 ^ 32 - 1) []).

(** The backoff of [autoCompact] after a failed compaction:
    [interval += interval / 2]. *)
Definition backoff (interval : Z) : Z := wrap64 (interval + Z.quot interval 2).
(** Events of the loop other than the close of [db.closing]. *)
Definition not_closing (ev : acEvent) : bool := match ev with Closing => false | _ => true end.
(** A tick whose compaction failed. *)
Definition is_failure (ev : acEvent) : bool := match ev with Tick (Some _) => true | _ => false end.
(** The number of failed compactions among [evs]. *)
Definition failures (evs : list acEvent) : nat := length (List.filter is_failure evs).

(** [DB.Add(1, [1])] on a fresh DB, a DB closed right after creation. *)
Definition add1_db : DB := state_of (DB_Add 1 [1] fresh_db) fresh_db.
Definition closed_db : DB := state_of (Close fresh_db) fresh_db.
(** A directory where writing manifest 2 fails. *)
Definition skip_fs : FS := mkFS [] (fun f => bool_decide (f = FManifest 2)).
Definition skip_db : DB := init skip_fs DefaultOptions (mkManifest 0 []).
Definition skip_db1 : DB := state_of (txn_Commit ci_tx1 skip_db) skip_db.
Definition skip_db2 : DB := state_of (txn_Commit ci_tx1 skip_db1) skip_db1.

(* ================================================================== *)
(** * Further entry points of [db.go] and the handlers of [server.go]  *)
(* ================================================================== *)

(** [DB.NumSegments()]: the number of segments of the published manifest. *)
Definition NumSegments (db : DB) : Z := Z.of_nat (length (m_Segments (db_manifest db))).

(** [DB.Contains(docID)]: some segment of the published manifest contains
    the docID. *)
Definition DB_Contains (d : Z) (db : DB) : bool :=
  existsb (fun s => seg_Contains s d) (m_Segments (db_manifest db)).

(** A step whose every return relates the state before to the state
    after by [P]. *)
Definition keeps (P : DB -> DB -> Prop) {A} (m : M A) : Prop :=
  forall db r db', m db = Done r db' -> P db db'.

(** The open snapshot and transaction counters are the same. *)
Definition same_counters (db db' : DB) : Prop :=
  db_numSnapshots db' = db_numSnapshots db /\ db_numTransactions db' = db_numTransactions db.

(** The published manifest and the counters are the same. *)
Definition same_view (db db' : DB) : Prop :=
  db_manifest db' = db_manifest db /\ same_counters db db'.

(** A one-character string holding a double quote. *)
Definition dq : string := String (Ascii.ascii_of_nat 34) EmptyString.

(** [json.Marshal] of a string; the strings [server.go] marshals (the
    keys, ["ok"] and its fixed error messages) hold no character JSON
    escapes. *)
Definition json_string (s : string) : string := dq +:+ s +:+ dq.

(** The [Doc] of [ServePOST]'s request body, as [json.Decoder] fills it
    ([ID uint32], [Hashes []uint32]). *)
Record Doc := mkDoc { doc_ID : Z; doc_Hashes : list Z }.

(** An HTTP request to the [/index] handler: its method and its body
    decoded as [{"docs": [...]}]; [None] is a body [decoder.Decode]
    rejects.  An absent or [null] [docs] decodes to the empty list. *)
Record Request := mkRequest {
  req_Method : string;
  req_Docs : option (list Doc)
}.

(** What a handler writes to its [http.ResponseWriter]: the status, the
    headers it sets and the body. *)
Record Response := mkResponse {
  resp_status : Z;
  resp_headers : list (string * string);
  resp_body : string
}.

(** [writeResponse(w, status, response)], given [json.Marshal(response)].
    Marshalling the handlers' response structs and string maps cannot
    fail, so the [StatusInternalServerError] branch is never taken. *)
Definition writeResponse (status : Z) (body : string) : Response :=
  let body := body +:+ String (Ascii.ascii_of_nat 10) EmptyString in
  mkResponse status
    [("Content-Type", "application/json; charset=utf-8");
     ("Content-Length", pretty (N.of_nat (String.length body)))]
    body.

(** [writeErrorResponse]: the body [{"message": message}]. *)
Definition writeErrorResponse (status : Z) (message : string) : Response :=
  writeResponse status ("{" +:+ json_string "message" +:+ ":" +:+ json_string message +:+ "}").

(** The marshalled [&Response{Status: "ok"}]. *)
Definition status_ok : string := "{" +:+ json_string "status" +:+ ":" +:+ json_string "ok" +:+ "}".

(** A call [h.idx.Add(doc.ID, doc.Hashes)].  [Index.Add] is not part of
    the sources at hand; [ServePOST] ignores what it returns, so a handler
    is modelled as its response and the list of calls it makes, in order. *)
Definition IndexCall := (Z * list Z)%type.

(** [indexHandler.ServeGET]. *)
Definition ServeGET : Response * list IndexCall := (writeResponse 200 status_ok, []).

(** The validation loop of [ServePOST]: the message of the first doc
    with a zero ID or no hashes. *)
Fixpoint check_docs (docs : list Doc) : option string :=
  match docs with
  | [] => None
  | doc :: docs' =>
      if doc_ID doc =? 0 then Some "missing ID"%string
      else if Nat.eqb (length (doc_Hashes doc)) 0 then Some "missing hashes"%string
      else check_docs docs'
  end.

(** [indexHandler.ServePOST]. *)
Definition ServePOST (r : Request) : Response * list IndexCall :=
  match req_Docs r with
  | None => (writeErrorResponse 400 "invalid request body", [])
  | Some docs =>
      if Nat.eqb (length docs) 0 then (writeErrorResponse 400 "no docs", []) else
      match check_docs docs with
      | Some msg => (writeErrorResponse 400 msg, [])
      | None => (writeResponse 200 status_ok, map (fun doc => (doc_ID doc, doc_Hashes doc)) docs)
      end
  end.

(** [indexHandler.ServeDELETE]. *)
Definition ServeDELETE : Response * list IndexCall := (writeResponse 200 status_ok, []).

(** [indexHandler.ServeHTTP]: dispatch on the method. *)
Definition index_ServeHTTP (r : Request) : Response * list IndexCall :=
  if String.eqb (req_Method r) "GET" then ServeGET
  else if String.eqb (req_Method r) "POST" then ServePOST r
  else if String.eqb (req_Method r) "DELETE" then ServeDELETE
  else (writeErrorResponse 405 "only methods GET, POST and DELETE are allowed", []).

(** A doc that passes both checks of [ServePOST]'s validation loop. *)
Definition doc_ok (doc : Doc) : bool :=
  negb (doc_ID doc =? 0) && negb (Nat.eqb (length (doc_Hashes doc)) 0).

(** Scenarios: docID 1 deleted again after [add1_db]; [add1_db]
    truncated; the directory of [add1_db] reopened. *)
Definition del1_db : DB := state_of (DB_Delete 1 add1_db) add1_db.
Definition trunc_db : DB := state_of (Truncate add1_db) add1_db.
Definition add1_reopened : DB := init (db_fs add1_db) DefaultOptions (db_manifest add1_db).
(** A file system on which taking the write lock fails, and a DB on it. *)
Definition locked_fs : FS := mkFS [] (fun f => bool_decide (f = FWriteLock)).
Definition locked_db : DB := init locked_fs DefaultOptions (mkManifest 0 []).
(** A directory whose manifest lists segment 1, whose files are missing. *)
Definition lost_seg_fs : FS := mkFS [(FManifest 1, CManifest [(1, 1)])] (fun _ => false).

(* ================================================================== *)
(** * Properties                                                       *)
(* ================================================================== *)

(** ** C1 *)

(** C1: on a freshly created DB, [Add(1234, [0xdcfc2563, ..., 0x4f0ea5c0])]
    and [Add(5678, [123, 53])] both return nil (an error would stop the
    sequence), and then
    [Search([1, 2, 0xdcfc2563, 0xdcbc2421, 0xdeadbeef, 0xffffffff])]
    returns exactly [{1234: 2}] with no error: the two query terms that
    document 1234 holds count once each, document 5678 is absent. *)
Theorem add_search_scenario :
  exists db0,
    Open empty_fs true None = Ok db0 /\
    result_of (add_search db0) = Some (Ok {[1234 := 2]}).
Proof.
  eexists. split; [reflexivity|].
  vm_compute. reflexivity.
Qed.


(** ** Searches only see items and deletion sets *)

Lemma seg_equiv_refl s : seg_equiv s s.
Proof. split; auto. Qed.

Lemma seg_equiv_trans s1 s2 s3 : seg_equiv s1 s2 -> seg_equiv s2 s3 -> seg_equiv s1 s3.
Proof.
  intros [Hi1 Hd1] [Hi2 Hd2]. split; [congruence|]. intros x. by rewrite Hd1, Hd2.
Qed.

Lemma segs_equiv_refl l : Forall2 seg_equiv l l.
Proof. induction l; constructor; auto using seg_equiv_refl. Qed.

Lemma segs_equiv_trans l1 l2 l3 :
  Forall2 seg_equiv l1 l2 -> Forall2 seg_equiv l2 l3 -> Forall2 seg_equiv l1 l3.
Proof.
  intros H12. revert l3. induction H12 as [|x y l1 l2 Hxy _ IH]; intros l3 H23;
    inversion H23; subst; constructor; eauto using seg_equiv_trans.
Qed.

Lemma seg_search_term_equiv s s' q acc :
  seg_equiv s s' -> seg_search_term s q acc = seg_search_term s' q acc.
Proof.
  intros [Hi Hd]. unfold seg_search_term. rewrite Hi.
  generalize (seg_items s') as l. intros l. revert acc.
  induction l as [|it l IH]; intros acc; simpl; [done|].
  rewrite Hd. apply IH.
Qed.

Lemma seg_search_equiv s s' q acc :
  seg_equiv s s' -> seg_search s q acc = seg_search s' q acc.
Proof.
  intros He. unfold seg_search. revert acc.
  induction q as [|t q IH]; intros acc; simpl; [done|].
  rewrite (seg_search_term_equiv s s' t acc He). apply IH.
Qed.

Lemma search_segs_equiv l l' q acc :
  Forall2 seg_equiv l l' ->
  fold_left (fun acc s => seg_search s q acc) l acc =
  fold_left (fun acc s => seg_search s q acc) l' acc.
Proof.
  intros H. revert acc. induction H as [|s s' l l' Hs _ IH]; intros acc; simpl; [done|].
  rewrite (seg_search_equiv s s' q acc Hs). apply IH.
Qed.

Lemma search_manifest_equiv m m' q :
  Forall2 seg_equiv (m_Segments m) (m_Segments m') ->
  search_manifest m q = search_manifest m' q.
Proof. intros H. unfold search_manifest. by apply search_segs_equiv. Qed.

(** A segment all of whose items belong to deleted docIDs adds nothing. *)
Lemma seg_search_dead s q acc :
  Forall (fun it : Item => seg_is_deleted s it.2 = true) (seg_items s) ->
  seg_search s q acc = acc.
Proof.
  intros Hdead. unfold seg_search. revert acc.
  induction q as [|t q IH]; intros acc; simpl; [done|].
  rewrite IH. unfold seg_search_term. clear IH.
  revert acc. induction Hdead as [|it l Hit _ IHl]; intros acc; simpl; [done|].
  rewrite Hit, andb_false_r. apply IHl.
Qed.

(** ** Tombstones *)

Lemma seg_is_deleted_Delete d s x :
  seg_is_deleted (seg_Delete d s) x = seg_is_deleted s x || (x =? d).
Proof.
  unfold seg_Delete. destruct (seg_is_deleted s d) eqn:Hd.
  - destruct (Z.eqb_spec x d); subst; [by rewrite Hd|by rewrite orb_false_r].
  - unfold seg_is_deleted at 1. simpl. fold (seg_is_deleted s x). apply orb_comm.
Qed.

Lemma seg_items_Delete d s : seg_items (seg_Delete d s) = seg_items s.
Proof. unfold seg_Delete. by destruct (seg_is_deleted s d). Qed.

Lemma tombstone_map segs d : tombstone segs d = map (tomb1 d) segs.
Proof. reflexivity. Qed.

Lemma tomb1_equiv d s s' : seg_equiv s s' -> seg_equiv (tomb1 d s) (tomb1 d s').
Proof.
  intros [Hi Hd]. unfold tomb1.
  replace (seg_Contains s d) with (seg_Contains s' d) by (unfold seg_Contains; by rewrite Hi).
  destruct (seg_Contains s' d).
  - split; [by rewrite !seg_items_Delete|]. intros x. by rewrite !seg_is_deleted_Delete, Hd.
  - split; auto.
Qed.

Lemma tomb1_idem d s : seg_equiv (tomb1 d (tomb1 d s)) (tomb1 d s).
Proof.
  unfold tomb1 at 1 2. destruct (seg_Contains s d) eqn:Hc.
  - unfold tomb1, seg_Contains. rewrite seg_items_Delete. fold (seg_Contains s d). rewrite Hc.
    split; [by rewrite seg_items_Delete|]. intros x.
    rewrite !seg_is_deleted_Delete. by destruct (seg_is_deleted s x), (x =? d).
  - unfold tomb1. rewrite Hc. apply seg_equiv_refl.
Qed.

Lemma tombstone_equiv d a b :
  Forall2 seg_equiv a b -> Forall2 seg_equiv (tombstone a d) (tombstone b d).
Proof. intros H. rewrite !tombstone_map. induction H; constructor; auto using tomb1_equiv. Qed.

Lemma tombstone_idem d a : Forall2 seg_equiv (tombstone (tombstone a d) d) (tombstone a d).
Proof. rewrite !tombstone_map. induction a; constructor; auto using tomb1_idem. Qed.

Lemma fold_tombstone_app P a b :
  fold_left tombstone P (a ++ b) = fold_left tombstone P a ++ fold_left tombstone P b.
Proof.
  revert a b. induction P as [|d P IH]; intros a b; simpl; [done|].
  by rewrite <- IH, tombstone_map, tombstone_map, tombstone_map, map_app.
Qed.

Lemma fold_tombstone_equiv P a b :
  Forall2 seg_equiv a b -> Forall2 seg_equiv (fold_left tombstone P a) (fold_left tombstone P b).
Proof.
  revert a b. induction P as [|d P IH]; intros a b H; simpl; [done|].
  apply IH. by apply tombstone_equiv.
Qed.

(** Tombstoning the same docID several times is tombstoning it once. *)
Lemma fold_tombstone_const d P a :
  Forall (fun x => x = d) P -> P <> [] ->
  Forall2 seg_equiv (fold_left tombstone P a) (tombstone a d).
Proof.
  intros HP. revert a. induction HP as [|x P Hx HP IH]; intros a Hne; [done|]. subst x.
  simpl. destruct P as [|y P'].
  - apply segs_equiv_refl.
  - eapply segs_equiv_trans; [apply IH; discriminate|]. apply tombstone_idem.
Qed.

(** ** Sorting keeps the items *)

Lemma insert_item_Forall (P : Item -> Prop) x l :
  P x -> Forall P l -> Forall P (insert_item x l).
Proof.
  intros Hx Hl. induction Hl as [|y l Hy Hl IH]; simpl; [by constructor|].
  destruct (item_leb x y); constructor; auto.
Qed.

Lemma sort_items_Forall (P : Item -> Prop) l : Forall P l -> Forall P (sort_items l).
Proof. induction 1; simpl; [constructor|]. by apply insert_item_Forall. Qed.

Lemma insert_item_nil x l : insert_item x l <> [].
Proof. destruct l; simpl; [discriminate|]. destruct (item_leb x i); discriminate. Qed.

Lemma buffer_items_single d ts :
  ts <> [] ->
  buffer_items [(d, ts)] <> [] /\ Forall (fun it : Item => it.2 = d) (buffer_items [(d, ts)]).
Proof.
  intros Hts. unfold buffer_items. simpl. rewrite app_nil_r. split.
  - destruct ts as [|t ts]; [done|]. simpl. apply insert_item_nil.
  - apply sort_items_Forall. apply Forall_forall. intros it Hin.
    apply list_elem_of_In, in_map_iff in Hin. destruct Hin as (t & <- & _). done.
Qed.

(** ** Inverting successful calls *)

Ltac munfold :=
  unfold mbind, M_bind, mret, M_ret, gets, modify, throw, lift, attempt, wrap_err,
    next_txid, write_file in *.

Lemma commit_ok_inv p db db' :
  commit p db = Done (Ok tt) db' ->
  db_closed db = false /\
  exists m db1 segs db2,
    p (db_manifest db) db = Done (Ok m) db1 /\
    save_updates (wrap32 (db_txid db1 + 1)) (m_Segments m)
      (set_txid (wrap32 (db_txid db1 + 1)) db1) = Done (Ok segs) db2 /\
    db_manifest db' = mkManifest (wrap32 (db_txid db1 + 1)) segs.
Proof.
  unfold commit. munfold. cbn.
  destruct (db_closed db); [discriminate|]. intros H. split; [done|].
  destruct (p (db_manifest db) db) as [[m|e] db1| |] eqn:Hp; try discriminate.
  destruct (save_updates _ _ _) as [[segs|e] db2| |] eqn:Hs; try discriminate.
  exists m, db1, segs, db2. split; [done|]. split; [done|].
  unfold manifest_Save in H. munfold. cbn in H.
  destruct (fs_write _ _ _); try discriminate. cbn in H.
  destruct (decFileRefs _ _) as [[[]|e] db3| |]; try discriminate.
  by injection H as <-.
Qed.

Lemma prepare_ok_inv tx base db m db1 :
  txn_prepareCommit tx base db = Done (Ok m) db1 ->
  buffer_items (tx_buf tx) <> [] ->
  exists seg,
    m_Segments m = fold_left tombstone (tx_pending tx ++ map snd (buffer_items (tx_buf tx)))
                     (m_Segments base) ++ [seg] /\
    seg_items seg = buffer_items (tx_buf tx) /\ seg_DeletedDocs seg = [].
Proof.
  unfold txn_prepareCommit. destruct (buffer_items (tx_buf tx)) as [|it its] eqn:Hb; [done|].
  intros H _. unfold createSegment, CreateSegment in H. munfold. cbn in H.
  destruct (fs_write _ _ _); try discriminate. cbn in H.
  destruct (fs_write _ _ _); try discriminate. cbn in H.
  injection H as <- _. eexists. split; [reflexivity|]. done.
Qed.

Lemma save_updates_equiv id l db l' db' :
  save_updates id l db = Done (Ok l') db' -> Forall2 seg_equiv l l'.
Proof.
  revert db l' db'. induction l as [|s l IH]; intros db l' db' H.
  - cbn in H. injection H as <- _. constructor.
  - cbn in H. unfold seg_SaveUpdate in H. munfold.
    destruct (seg_dirty s).
    + cbn in H. destruct (fs_write _ _ _); try discriminate. cbn in H.
      destruct (save_updates id l _) as [[l2|e] db2| |] eqn:Hl; try discriminate.
      injection H as <- _. constructor; [split; done|]. eauto.
    + cbn in H.
      destruct (save_updates id l db) as [[l2|e] db2| |] eqn:Hl; try discriminate.
      injection H as <- _. constructor; [apply seg_equiv_refl|]. eauto.
Qed.

Lemma txn_Add_fresh_inv b d ts tx :
  txn_Add d ts (mkTxn b [] [] false) = Ok tx ->
  tx_buf tx = [(d, ts)] /\ Forall (fun x => x = d) (tx_pending tx) /\
  ts <> [] /\ tx_closed tx = false.
Proof.
  unfold txn_Add. cbn. destruct (d =? 0); [discriminate|].
  case_bool_decide as Hts; [discriminate|].
  destruct (snapshot_contains b d); cbn; intros H; injection H as <-; cbn; repeat split; auto.
Qed.

Lemma txn_Commit_open tx : tx_closed tx = false -> txn_Commit tx = commit (txn_prepareCommit tx).
Proof. intros H. unfold txn_Commit. by rewrite H. Qed.

(** What one committed single-document transaction leaves behind. *)
Lemma commit_single_add b d ts tx db db' :
  txn_Add d ts (mkTxn b [] [] false) = Ok tx ->
  txn_Commit tx db = Done (Ok tt) db' ->
  exists seg P,
    Forall (fun x => x = d) P /\ P <> [] /\
    seg_items seg = buffer_items [(d, ts)] /\ seg_DeletedDocs seg = [] /\
    Forall2 seg_equiv
      (fold_left tombstone P (m_Segments (db_manifest db)) ++ [seg])
      (m_Segments (db_manifest db')).
Proof.
  intros Hadd Hc. destruct (txn_Add_fresh_inv b d ts tx Hadd) as (Hbuf & Hpend & Hts & Hcl).
  rewrite txn_Commit_open in Hc by done.
  destruct (commit_ok_inv _ _ _ Hc) as (_ & m & db1 & segs & db2 & Hp & Hs & Hm).
  destruct (buffer_items_single d ts Hts) as [Hne Hall].
  rewrite <- Hbuf in Hne, Hall.
  destruct (prepare_ok_inv _ _ _ _ _ Hp Hne) as (seg & Hsegs & Hi & Hdel).
  exists seg, (tx_pending tx ++ map snd (buffer_items (tx_buf tx))).
  split; [|split; [|split; [by rewrite Hi, Hbuf|split; [done|]]]].
  - apply Forall_app. split; [done|]. apply Forall_map. eapply Forall_impl; [apply Hall|]. done.
  - destruct (buffer_items (tx_buf tx)) as [|it its]; [done|]. intros Happ.
    apply app_eq_nil in Happ as [_ Happ]. discriminate.
  - rewrite Hm. cbn. rewrite <- Hsegs. by eapply save_updates_equiv.
Qed.

Lemma seg_equiv_sym s s' : seg_equiv s s' -> seg_equiv s' s.
Proof. intros [Hi Hd]. split; [done|]. intros x. by rewrite Hd. Qed.

Lemma segs_equiv_sym l l' : Forall2 seg_equiv l l' -> Forall2 seg_equiv l' l.
Proof. induction 1; constructor; auto using seg_equiv_sym. Qed.

(** ** C2 *)

(** C2: two transactions, opened on any snapshots (so in any creation
    order), each Add the same docID [d], the first with [ts1], the second
    with [ts2]; both commit, the first one first.  Every search of the
    resulting index then answers as if only the later commit had happened
    on the index the two commits started from: [d] is tombstoned in every
    older segment, the first commit's segment is dead, and [d] is found by
    the terms [ts2] alone.  This is because each commit re-bases on the
    DB's current manifest. *)
Theorem concurrent_adds_last_commit_wins db b1 b2 d ts1 ts2 tx1 tx2 db1 db2 :
  txn_Add d ts1 (mkTxn b1 [] [] false) = Ok tx1 ->
  txn_Add d ts2 (mkTxn b2 [] [] false) = Ok tx2 ->
  txn_Commit tx1 db = Done (Ok tt) db1 ->
  txn_Commit tx2 db1 = Done (Ok tt) db2 ->
  forall q, search_manifest (db_manifest db2) q = search_manifest (replace_doc (db_manifest db) d ts2) q.
Proof.
  intros H1 H2 Hc1 Hc2 q.
  destruct (commit_single_add _ _ _ _ _ _ H1 Hc1) as (seg1 & P1 & HP1 & HP1ne & Hi1 & Hd1 & He1).
  destruct (commit_single_add _ _ _ _ _ _ H2 Hc2) as (seg2 & P2 & HP2 & HP2ne & Hi2 & Hd2 & He2).
  set (segs0 := m_Segments (db_manifest db)) in *.
  set (segs1 := m_Segments (db_manifest db1)) in *.
  rewrite <- (search_manifest_equiv (mkManifest 0 (fold_left tombstone P2 segs1 ++ [seg2]))
                (db_manifest db2) q He2).
  assert (Hmid : Forall2 seg_equiv (fold_left tombstone P2 segs1 ++ [seg2])
                   (tombstone segs0 d ++ [tomb1 d seg1] ++ [seg2])).
  { rewrite app_assoc. apply Forall2_app; [|apply segs_equiv_refl].
    eapply segs_equiv_trans.
    { apply fold_tombstone_equiv. apply segs_equiv_sym. exact He1. }
    rewrite fold_tombstone_app.
    apply Forall2_app.
    - eapply segs_equiv_trans; [by apply fold_tombstone_const|].
      eapply segs_equiv_trans; [apply tombstone_equiv; by apply fold_tombstone_const|].
      apply tombstone_idem.
    - change [tomb1 d seg1] with (tombstone [seg1] d). by apply fold_tombstone_const. }
  rewrite (search_manifest_equiv (mkManifest 0 (fold_left tombstone P2 segs1 ++ [seg2]))
             (mkManifest 0 (tombstone segs0 d ++ [tomb1 d seg1] ++ [seg2])) q Hmid).
  unfold search_manifest, replace_doc. cbn [m_Segments].
  rewrite !fold_left_app. cbn [fold_left].
  destruct (buffer_items_single d ts1) as [Hne1 Hall1].
  { intros ->. unfold txn_Add in H1. cbn in H1. destruct (d =? 0); discriminate. }
  rewrite (seg_search_dead (tomb1 d seg1)).
  - apply seg_search_equiv. split; [by rewrite Hi2|]. intros x. unfold seg_is_deleted. by rewrite Hd2.
  - unfold tomb1.
    assert (Hc : seg_Contains seg1 d = true).
    { unfold seg_Contains. rewrite Hi1.
      destruct (buffer_items [(d, ts1)]) as [|it its] eqn:Hb; [done|].
      rewrite Forall_cons in Hall1. destruct Hall1 as [Hit _]. cbn. by rewrite Hit, Z.eqb_refl. }
    rewrite Hc, seg_items_Delete, Hi1.
    eapply Forall_impl; [exact Hall1|]. intros it Hit.
    rewrite seg_is_deleted_Delete, Hit, Z.eqb_refl. apply orb_true_r.
Qed.

(** Witness of C2 on the test's scenario: after both commits, term 1
    finds nothing and term 2 finds docID 1 once. *)
Lemma concurrent_adds_last_commit_wins_witness :
  Open empty_fs true None = Ok fresh_db /\
  search_manifest (db_manifest ci_db2) [1] = (∅ : gmap Z Z) /\
  search_manifest (db_manifest ci_db2) [2] = ({[1 := 1]} : gmap Z Z) /\
  forall q, search_manifest (db_manifest ci_db2) q =
            search_manifest (replace_doc (db_manifest fresh_db) 1 [2]) q.
Proof.
  split; [vm_compute; reflexivity|].
  split; [vm_compute; reflexivity|].
  split; [vm_compute; reflexivity|].
  apply (concurrent_adds_last_commit_wins fresh_db ci_snap ci_snap 1 [1] [2]
           ci_tx1 ci_tx2 ci_db1 ci_db2); vm_compute; reflexivity.
Defined.

(** ** C3 *)

Lemma io_safe_ret {A} P (a : A) : io_safe P (mret a).
Proof. intros db r db' H. munfold. injection H as <- <-. split_and!; [done|done|by intros]. Qed.

Lemma io_safe_bind {A B} P (m : M A) (k : A -> M B) :
  io_safe P m -> (forall a, io_safe P (k a)) -> io_safe P (x ← m; k x).
Proof.
  intros Hm Hk db r db' H. munfold.
  destruct (m db) as [[a|e] db1| |] eqn:E; [|injection H as <- <-|discriminate|discriminate].
  - destruct (Hm _ _ _ E) as (M1 & F1 & _).
    destruct (Hk a _ _ _ H) as (M2 & F2 & E2).
    rewrite <- F1. split_and!; [congruence|exact F2|exact E2].
  - destruct (Hm _ _ _ E) as (M1 & F1 & E1). split_and!; [done|done|].
    intros e' He'. injection He' as <-. by apply E1.
Qed.

Lemma io_safe_weaken {A} (P Q : (FileName -> bool) -> error -> Prop) (m : M A) :
  (forall fl e, P fl e -> Q fl e) -> io_safe P m -> io_safe Q m.
Proof.
  intros HPQ Hm db r db' H. destruct (Hm _ _ _ H) as (? & ? & HE).
  split_and!; auto.
Qed.

Lemma io_safe_write f c : io_safe io_err (write_file f c).
Proof.
  intros db r db' H. munfold. unfold fs_write in H.
  destruct (fs_fails (db_fs db) f) eqn:Ef.
  - injection H as <- <-. split_and!; [done|done|]. intros e He. injection He as <-. by exists f.
  - injection H as <- <-. split_and!; [done|done|]. by intros e He.
Qed.

Lemma io_safe_next_txid P : io_safe P next_txid.
Proof. intros db r db' H. munfold. injection H as <- <-. split_and!; [done|done|by intros]. Qed.

Lemma io_safe_wrap {A} msg P (m : M A) :
  io_safe P m -> io_safe (fun fl e => exists e0, e = Wrap msg e0 /\ P fl e0) (wrap_err msg m).
Proof.
  intros Hm db r db' H. unfold wrap_err in H.
  destruct (m db) as [[a|e] db1| |] eqn:E; try discriminate;
    injection H as <- <-; destruct (Hm _ _ _ E) as (? & ? & HE); split_and!; auto.
  - by intros e' He'.
  - intros e' He'. injection He' as <-. eauto.
Qed.

Lemma io_safe_prepare tx base : io_safe io_err (txn_prepareCommit tx base).
Proof.
  unfold txn_prepareCommit. destruct (buffer_items (tx_buf tx)).
  - apply io_safe_ret.
  - apply io_safe_bind; [|intros; apply io_safe_ret].
    unfold createSegment. apply io_safe_bind; [apply io_safe_next_txid|]. intros id.
    unfold CreateSegment. apply io_safe_bind; [apply io_safe_write|]. intros [].
    apply io_safe_bind; [apply io_safe_write|]. intros []. apply io_safe_ret.
Qed.

Lemma io_safe_save_updates id segs :
  io_safe (fun fl e => exists e0, e = Wrap "segment update failed"%string e0 /\ io_err fl e0)
    (save_updates id segs).
Proof.
  induction segs as [|s segs IH]; simpl; [apply io_safe_ret|].
  apply io_safe_bind; [|intros s'; apply io_safe_bind; [exact IH|intros; apply io_safe_ret]].
  apply io_safe_wrap. unfold seg_SaveUpdate. destruct (seg_dirty s).
  - apply io_safe_bind; [apply io_safe_write|]. intros []. apply io_safe_ret.
  - apply io_safe_ret.
Qed.

Lemma dec_names_no_err names db r db' : dec_names names db = Done r db' -> r = Ok tt.
Proof.
  revert db. induction names as [|f names IH]; intros db H; simpl in H; munfold.
  - by injection H as <-.
  - destruct (decide _).
    + unfold send_orphan in H. destruct (db_orphanedFiles _); [discriminate|]. exact (IH _ H).
    + exact (IH _ H).
Qed.

(** C3: a commit of a transaction fails atomically.  On a closed DB it
    returns [AlreadyClosed] and changes nothing.  Whenever it returns an
    error, the published manifest (the one later snapshots and searches
    read) is the one current before the commit, and the error is either
    [AlreadyClosed] or the I/O error of a file the directory refused to
    write, as returned by the preparation (writing the new segment), by a
    segment metadata write or by the manifest write, wrapped by
    [errors.Wrap] with the message of that step. *)
Theorem commit_failure_atomic tx db :
  (db_closed db = true -> txn_Commit tx db = Done (Err ErrAlreadyClosed) db) /\
  forall e db', txn_Commit tx db = Done (Err e) db' ->
    db_manifest db' = db_manifest db /\
    (e = ErrAlreadyClosed \/
     exists f, fs_fails (db_fs db) f = true /\
       (e = Wrap "commit preparation failed"%string (ErrIO f) \/
        e = Wrap "segment update failed"%string (ErrIO f) \/
        e = Wrap "save failed"%string (ErrIO f))).
Proof.
  split.
  { intros Hc. unfold txn_Commit, commit. destruct (tx_closed tx); [done|].
    munfold. cbn. by rewrite Hc. }
  intros e db' H. unfold txn_Commit in H. destruct (tx_closed tx).
  { munfold. injection H as <- <-. auto. }
  unfold commit in H. munfold. cbn in H.
  destruct (db_closed db). { injection H as <- <-. auto. }
  destruct (txn_prepareCommit tx (db_manifest db) db) as [[m|e1] db1| |] eqn:Hp; [|cbn in H|discriminate|discriminate].
  2:{ injection H as <- <-.
      destruct (io_safe_prepare tx _ _ _ _ Hp) as (Hm & _ & HE).
      destruct (HE e1 eq_refl) as (f & -> & Hf). split; [done|]. right. exists f. auto. }
  destruct (io_safe_prepare tx _ _ _ _ Hp) as (Hm1 & Hf1 & _).
  destruct (save_updates _ _ _) as [[segs|e2] db2| |] eqn:Hs; [|cbn in H|discriminate|discriminate].
  2:{ injection H as <- <-.
      destruct (io_safe_save_updates _ _ _ _ _ Hs) as (Hm2 & _ & HE).
      destruct (HE e2 eq_refl) as (e0 & -> & f & -> & Hf). cbn in Hm2, Hf.
      split; [congruence|]. right. exists f. rewrite <- Hf1. auto. }
  destruct (io_safe_save_updates _ _ _ _ _ Hs) as (Hm2 & Hf2 & _). cbn in Hm2, Hf2.
  unfold manifest_Save in H. munfold. cbn in H.
  unfold fs_write in H.
  destruct (fs_fails (db_fs db2) (FManifest (wrap32 (db_txid db1 + 1)))) eqn:Ef; cbn in H.
  { injection H as <- <-. split; [congruence|]. right. eexists. split; [|right; right; reflexivity].
    rewrite <- Hf1, <- Hf2. exact Ef. }
  destruct (decFileRefs _ _) as [r db3| |] eqn:Hd; [|discriminate|discriminate].
  rewrite (dec_names_no_err _ _ _ _ Hd) in H. discriminate.
Qed.

(** ** Reopening restores the manifest *)

(** A step that returned [r] ended in the state [state_of] reads off. *)
Lemma done_state_of {A} (o : outcome A) db r : result_of o = Some r -> o = Done r (state_of o db).
Proof. destruct o; simpl; congruence. Qed.

Lemma lookup_drop f g l :
  lookup_file g (drop_file f l) = if decide (g = f) then None else lookup_file g l.
Proof.
  induction l as [|[h c] l IH]; simpl; [by destruct (decide (g = f))|].
  unfold drop_file in *. simpl.
  destruct (bool_decide (h = f)) eqn:E; simpl.
  - apply bool_decide_eq_true in E. subst h. rewrite IH.
    destruct (decide (g = f)); [done|]. destruct (decide (g = f)); done.
  - apply bool_decide_eq_false in E. destruct (decide (g = h)).
    + subst. destruct (decide (h = f)); done.
    + exact IH.
Qed.

Lemma fs_read_write f c fs fs' g :
  fs_write f c fs = Ok fs' ->
  fs_read fs' g = if decide (g = f) then Some c else fs_read fs g.
Proof.
  unfold fs_write. destruct (fs_fails fs f); [discriminate|]. intros [= <-].
  unfold fs_read. simpl. rewrite lookup_drop. by destruct (decide (g = f)).
Qed.

Lemma fs_fails_write f c fs fs' : fs_write f c fs = Ok fs' -> fs_fails fs' = fs_fails fs.
Proof. unfold fs_write. destruct (fs_fails fs f); [discriminate|]. by intros [= <-]. Qed.

Lemma fs_read_remove f fs g :
  fs_read (fs_remove f fs) g = if decide (g = f) then None else fs_read fs g.
Proof. unfold fs_read, fs_remove. simpl. apply lookup_drop. Qed.

Lemma add_refs_spec names refs g : add_refs names refs g = refs g + cnt g names.
Proof.
  unfold add_refs, cnt. revert refs. induction names as [|f names IH]; intros refs; simpl; [lia|].
  rewrite IH. unfold bump_ref. destruct (decide (g = f)) as [->|Hne].
  - rewrite bool_decide_true by done. simpl. lia.
  - rewrite bool_decide_false by congruence. lia.
Qed.

Lemma cnt_nonneg g l : 0 <= cnt g l.
Proof. unfold cnt. lia. Qed.

Lemma cnt_cons g f l : cnt g (f :: l) = (if decide (f = g) then 1 else 0) + cnt g l.
Proof. unfold cnt. simpl. destruct (decide (f = g)); [rewrite bool_decide_true|rewrite bool_decide_false]; simpl; auto; lia. Qed.

Lemma cnt_pos g l : g ∈ l -> 0 < cnt g l.
Proof.
  induction l as [|f l IH]; intros H; [set_solver|]. rewrite cnt_cons.
  pose proof (cnt_nonneg g l).
  destruct (decide (f = g)) as [->|Hne]; [lia|].
  assert (g ∈ l) by set_solver. specialize (IH H1). lia.
Qed.

Lemma cnt_zero g l : ~ g ∈ l -> cnt g l = 0.
Proof.
  induction l as [|f l IH]; intros H; [done|]. rewrite cnt_cons.
  destruct (decide (f = g)) as [->|]; [set_solver|]. rewrite IH; set_solver.
Qed.

(** Decrementing the references of [names] from [R + cnt names] back to
    [R]: only names whose count [R] is not positive are removed. *)
Lemma dec_names_spec names db R :
  db_orphanedFiles db = false ->
  (forall g, db_refs db g = R g + cnt g names) ->
  exists fs' refs',
    dec_names names db = Done (Ok tt) (set_refs refs' (set_fs fs' db)) /\
    (forall g, refs' g = R g) /\
    fs_fails fs' = fs_fails (db_fs db) /\
    forall f, fs_read fs' f <> fs_read (db_fs db) f -> f ∈ names /\ R f <= 0.
Proof.
  revert db. induction names as [|f names IH]; intros db Ho Hr.
  - exists (db_fs db), (db_refs db). split_and!; [|intros g; rewrite Hr; unfold cnt; simpl; lia|done|intros ? []; done].
    simpl. unfold mret, M_ret. by destruct db.
  - simpl. unfold mbind, M_bind, modify, gets, mret, M_ret. simpl.
    set (db1 := set_refs (bump_ref (-1) f (db_refs db)) db).
    assert (Hr1 : forall g, db_refs db1 g = R g + cnt g names).
    { intros g. simpl. unfold bump_ref. rewrite Hr, cnt_cons. destruct (decide (g = f)) as [->|];
      [rewrite decide_True by done; lia|rewrite decide_False by congruence; lia]. }
    change (bump_ref (-1) f (db_refs db) f) with (db_refs db1 f).
    assert (Ho1 : db_orphanedFiles db1 = false) by (subst db1; by destruct db).
    destruct (decide (db_refs db1 f <= 0)) as [Hle|Hgt]; cbv beta.
    + unfold send_orphan. rewrite Ho1.
      set (db2 := set_fs (fs_remove f (db_fs db1)) db1).
      destruct (IH db2) as (fs' & refs' & Hd & HR & Hf & Hch); [done|done|].
      rewrite Hd. exists fs', refs'. split_and!.
      * by destruct db.
      * done.
      * rewrite Hf. by destruct db.
      * intros g Hg. destruct (decide (g = f)) as [->|Hne].
        -- split; [set_solver|]. rewrite Hr1 in Hle. pose proof (cnt_nonneg f names). lia.
        -- assert (Hg2 : fs_read fs' g <> fs_read (db_fs db2) g).
           { simpl. rewrite fs_read_remove, decide_False by done. by destruct db. }
           destruct (Hch g Hg2). split; [set_solver|done].
    + destruct (IH db1) as (fs' & refs' & Hd & HR & Hf & Hch); [done|done|].
      rewrite Hd. exists fs', refs'. split_and!.
      * by destruct db.
      * done.
      * rewrite Hf. by destruct db.
      * intros g Hg. destruct (Hch g Hg). split; [set_solver|done].
Qed.

Lemma only_fs_txid_refl db : only_fs_txid db db.
Proof. by destruct db. Qed.

Lemma only_fs_txid_trans db1 db2 db3 :
  only_fs_txid db1 db2 -> only_fs_txid db2 db3 -> only_fs_txid db1 db3.
Proof. unfold only_fs_txid. intros -> ->. by destruct db1. Qed.

Lemma fs_frame_refl t fs : fs_frame t fs fs.
Proof. done. Qed.

Lemma fs_frame_trans t t' fs1 fs2 fs3 :
  t <= t' -> fs_frame t fs1 fs2 -> fs_frame t' fs2 fs3 -> fs_frame t fs1 fs3.
Proof.
  intros Ht [F1 R1] [F2 R2]. split; [congruence|]. intros f Hf.
  rewrite R2, R1; [done|done|]. intros Hf'. apply Hf. destruct f; simpl in *; lia.
Qed.

Lemma post_pre fs t segs : post_ok fs t segs -> pre_ok fs t segs.
Proof.
  intros [HF HN]. split; [|done]. eapply Forall_impl; [exact HF|].
  intros s ((Hd & Hm & Hdi) & Hi & Hu). unfold stored_data, stored. auto.
Qed.

Lemma pre_ok_frame t fs fs' segs : fs_frame t fs fs' -> pre_ok fs t segs -> pre_ok fs' t segs.
Proof.
  intros [_ HR] [HF HN]. split; [|done]. eapply Forall_impl; [exact HF|].
  intros s (Hd & Hst & Hi & Hu).
  assert (HD : fs_read fs' (FSegData (seg_ID s)) = fs_read fs (FSegData (seg_ID s)))
    by (apply HR; simpl; lia).
  assert (HM : fs_read fs' (FSegMeta (seg_ID s) (seg_UpdateID s)) =
               fs_read fs (FSegMeta (seg_ID s) (seg_UpdateID s))) by (apply HR; simpl; lia).
  unfold stored_data, stored in *. rewrite HD, HM. split_and!; auto.
Qed.

Lemma pre_ok_mono fs t t' segs : t <= t' -> pre_ok fs t segs -> pre_ok fs t' segs.
Proof.
  intros Ht [HF HN]. split; [|done]. eapply Forall_impl; [exact HF|]. intros s (? & ? & ? & ?).
  split_and!; auto; lia.
Qed.

Lemma post_ok_mono fs t t' segs : t <= t' -> post_ok fs t segs -> post_ok fs t' segs.
Proof.
  intros Ht [HF HN]. split; [|done]. eapply Forall_impl; [exact HF|]. intros s (? & ? & ?).
  split_and!; auto; lia.
Qed.

Lemma tomb1_cases d s :
  tomb1 d s = s \/
  (seg_ID (tomb1 d s) = seg_ID s /\ seg_UpdateID (tomb1 d s) = seg_UpdateID s /\
   seg_items (tomb1 d s) = seg_items s /\ seg_dirty (tomb1 d s) = true).
Proof.
  unfold tomb1, seg_Delete. destruct (seg_Contains s d); [|auto].
  destruct (seg_is_deleted s d); [auto|]. right. done.
Qed.

Lemma tomb1_ID d s : seg_ID (tomb1 d s) = seg_ID s.
Proof. destruct (tomb1_cases d s) as [->|(? & _)]; done. Qed.

Lemma pre_ok_tombstone fs t segs d : pre_ok fs t segs -> pre_ok fs t (tombstone segs d).
Proof.
  intros [HF HN]. rewrite tombstone_map. split.
  - apply Forall_map. eapply Forall_impl; [exact HF|]. intros s (Hd & Hst & Hi & Hu).
    destruct (tomb1_cases d s) as [->|(E1 & E2 & E3 & E4)]; [auto|].
    unfold stored_data in *. rewrite E1, E2, E3, E4. split_and!; auto; discriminate.
  - rewrite map_map. erewrite map_ext; [exact HN|]. apply tomb1_ID.
Qed.

Lemma pre_ok_fold_tombstone fs t P segs : pre_ok fs t segs -> pre_ok fs t (fold_left tombstone P segs).
Proof. revert segs. induction P; intros segs H; simpl; auto using pre_ok_tombstone. Qed.

Lemma wrap32_small z : 0 <= z < 2 ^ 32 -> wrap32 z = z.
Proof. intros. unfold wrap32. apply Z.mod_small. lia. Qed.

Lemma prepare_spec tx base db r db1 :
  0 <= db_txid db -> db_txid db + 1 < 2 ^ 32 ->
  pre_ok (db_fs db) (db_txid db) (m_Segments base) ->
  txn_prepareCommit tx base db = Done r db1 ->
  only_fs_txid db db1 /\
  db_txid db <= db_txid db1 <= db_txid db + 1 /\
  fs_frame (db_txid db) (db_fs db) (db_fs db1) /\
  forall m, r = Ok m -> pre_ok (db_fs db1) (db_txid db1) (m_Segments m).
Proof.
  intros H0 H1 Hpre H. unfold txn_prepareCommit in H.
  destruct (buffer_items (tx_buf tx)) as [|it its] eqn:Hb.
  - munfold. injection H as <- <-. split_and!; [apply only_fs_txid_refl|lia|lia|done|].
    intros m [= <-]. simpl. by apply pre_ok_fold_tombstone.
  - unfold createSegment, CreateSegment in H. munfold. cbn in H.
    rewrite wrap32_small in H by lia.
    destruct (fs_write (FSegData (db_txid db + 1)) _ _) as [fs1|e] eqn:W1; cbn in H.
    2:{ injection H as <- <-. split_and!; [by destruct db|simpl; lia|simpl; lia|by destruct db|done]. }
    destruct (fs_write (FSegMeta (db_txid db + 1) (db_txid db + 1)) _ fs1) as [fs2|e] eqn:W2; cbn in H.
    2:{ injection H as <- <-. split_and!; [by destruct db|simpl; lia|simpl; lia| |done].
        split; simpl; [by rewrite (fs_fails_write _ _ _ _ W1)|]. intros f Hf.
        simpl. rewrite (fs_read_write _ _ _ _ _ W1). destruct (decide _) as [->|]; [simpl in Hf; lia|done]. }
    injection H as <- <-.
    assert (Hfr : fs_frame (db_txid db) (db_fs db) fs2).
    { split; [by rewrite (fs_fails_write _ _ _ _ W2), (fs_fails_write _ _ _ _ W1)|]. intros f Hf.
      rewrite (fs_read_write _ _ _ _ _ W2), (fs_read_write _ _ _ _ _ W1).
      destruct (decide _) as [->|]; [simpl in Hf; lia|].
      destruct (decide _) as [->|]; [simpl in Hf; lia|done]. }
    split_and!; [by destruct db|simpl; lia|simpl; lia|exact Hfr|].
    intros m [= <-]. simpl.
    pose proof (pre_ok_frame _ _ _ _ Hfr (pre_ok_fold_tombstone _ _ (tx_pending tx ++ map snd (it :: its)) _ Hpre)) as [HF HN].
    split.
    + apply Forall_app. split.
      * eapply Forall_impl; [exact HF|]. intros s (? & ? & ? & ?). split_and!; auto; lia.
      * constructor; [|constructor]. unfold stored_data, stored. simpl.
        rewrite (fs_read_write _ _ _ _ _ W2), decide_False by congruence.
        rewrite (fs_read_write _ _ _ _ _ W1), decide_True by done.
        rewrite (fs_read_write _ _ _ _ _ W2), decide_True by done. split_and!; auto; lia.
    + rewrite map_app. simpl. apply NoDup_app. split_and!; [done| |constructor; [set_solver|constructor]].
      intros x Hx Hx'. apply list_elem_of_singleton in Hx'. subst x.
      apply list_elem_of_In, in_map_iff in Hx as (s & Hs & Hin).
      rewrite Forall_forall in HF. destruct (HF s) as (_ & _ & Hi & _); [by apply list_elem_of_In|]. lia.
Qed.

Lemma seg_SaveUpdate_spec id s db r db1 :
  stored_data (db_fs db) s -> (seg_dirty s = false -> stored (db_fs db) s) ->
  seg_UpdateID s < id ->
  seg_SaveUpdate id s db = Done r db1 ->
  db1 = set_fs (db_fs db1) db /\
  fs_fails (db_fs db1) = fs_fails (db_fs db) /\
  (forall f, f <> FSegMeta (seg_ID s) id -> fs_read (db_fs db1) f = fs_read (db_fs db) f) /\
  forall s', r = Ok s' -> stored (db_fs db1) s' /\ seg_ID s' = seg_ID s /\ seg_UpdateID s' <= id.
Proof.
  intros Hd Hst Hu H. unfold seg_SaveUpdate in H. destruct (seg_dirty s) eqn:Edi.
  - munfold. cbn in H.
    destruct (fs_write (FSegMeta (seg_ID s) id) _ _) as [fs1|e] eqn:W; cbn in H.
    + injection H as <- <-. simpl. split_and!; [by destruct db|by apply (fs_fails_write _ _ _ _ W)| |].
      * intros f Hf. rewrite (fs_read_write _ _ _ _ _ W). by rewrite decide_False.
      * intros s' [= <-]. unfold stored. simpl. split_and!; [|by rewrite (fs_read_write _ _ _ _ _ W), decide_True|done|done|lia].
        rewrite (fs_read_write _ _ _ _ _ W), decide_False by congruence. exact Hd.
    + injection H as <- <-. split_and!; [by destruct db|done|done|done].
  - munfold. injection H as <- <-. split_and!; [by destruct db|done|done|].
    intros s' [= <-]. split_and!; auto; lia.
Qed.

Lemma save_updates_spec id segs db r db' :
  pre_ok (db_fs db) (id - 1) segs ->
  save_updates id segs db = Done r db' ->
  db' = set_fs (db_fs db') db /\
  fs_fails (db_fs db') = fs_fails (db_fs db) /\
  (forall f, (forall x, x ∈ map seg_ID segs -> f <> FSegMeta x id) ->
             fs_read (db_fs db') f = fs_read (db_fs db) f) /\
  forall segs', r = Ok segs' -> post_ok (db_fs db') id segs' /\ map seg_ID segs' = map seg_ID segs.
Proof.
  revert db r db'. induction segs as [|s segs IH]; intros db r db' Hpre H.
  - simpl in H. munfold. injection H as <- <-. split_and!; [by destruct db|done|done|].
    intros segs' [= <-]. split; [split; constructor|done].
  - destruct Hpre as [HF HN]. rewrite Forall_cons in HF. destruct HF as [(Hd & Hst & Hi & Hu) HF'].
    simpl in HN. rewrite NoDup_cons in HN. destruct HN as [Hnin HN'].
    assert (Hlt : seg_UpdateID s < id) by lia.
    simpl in H. unfold mbind at 1, M_bind at 1, wrap_err in H.
    destruct (seg_SaveUpdate id s db) as [[s'|e] db1| |] eqn:E1; [| |discriminate|discriminate].
    2:{ injection H as <- <-. destruct (seg_SaveUpdate_spec _ _ _ _ _ Hd Hst Hlt E1) as (Hdb & Hf & Hr & _).
        split_and!; [done|done| |done]. intros f Hf'. apply Hr. apply Hf'. apply list_elem_of_In. simpl. auto. }
    destruct (seg_SaveUpdate_spec _ _ _ _ _ Hd Hst Hlt E1) as (Hdb1 & Hf1 & Hr1 & Hs1).
    destruct (Hs1 s' eq_refl) as (Hst' & Hid' & Hu').
    assert (Hfr1 : fs_frame (id - 1) (db_fs db) (db_fs db1)).
    { split; [done|]. intros f Hf. apply Hr1. intros ->. simpl in Hf. lia. }
    assert (Hpre1 : pre_ok (db_fs db1) (id - 1) segs) by (eapply pre_ok_frame; [exact Hfr1|by split]).
    unfold mbind, M_bind in H.
    destruct (save_updates id segs db1) as [[segs''|e] db2| |] eqn:E2; [| |discriminate|discriminate].
    2:{ injection H as <- <-. destruct (IH _ _ _ Hpre1 E2) as (Hdb2 & Hf2 & Hr2 & _).
        split_and!; [rewrite Hdb2, Hdb1; by destruct db|congruence| |done].
        intros f Hf. rewrite Hr2, Hr1; [done| |].
        - apply Hf. apply list_elem_of_In. simpl. auto.
        - intros x Hx. apply Hf. apply list_elem_of_In. right. by apply list_elem_of_In. }
    unfold mret, M_ret in H. injection H as <- <-.
    destruct (IH _ _ _ Hpre1 E2) as (Hdb2 & Hf2 & Hr2 & Hs2).
    destruct (Hs2 segs'' eq_refl) as ([HF2 HN2] & Hmap2).
    split_and!; [rewrite Hdb2, Hdb1; by destruct db|congruence| |].
    { intros f Hf. rewrite Hr2, Hr1; [done| |].
      - apply Hf. apply list_elem_of_In. simpl. auto.
      - intros x Hx. apply Hf. apply list_elem_of_In. right. by apply list_elem_of_In. }
    intros segs' [= <-]. simpl. rewrite Hmap2, Hid'. split; [|done]. split.
    + constructor; [|exact HF2]. split_and!; [|lia|lia].
      destruct Hst' as (S1 & S2 & S3). unfold stored. rewrite !Hr2.
      * done.
      * intros x Hx Heq. injection Heq as <- Heq. subst id.
        apply Hnin. by rewrite <- Hid'.
      * intros x Hx Heq. discriminate.
    + change (NoDup (seg_ID s' :: map seg_ID segs'')). rewrite Hmap2, Hid'.
      apply NoDup_cons. split; [exact Hnin|exact HN'].
Qed.

Lemma manifest_not_seg_file i m : ~ FManifest i ∈ manifest_fileNames m.
Proof.
  unfold manifest_fileNames. intros H. apply list_elem_of_In, in_flat_map in H as (s & _ & Hs).
  simpl in Hs. destruct Hs as [H|[H|[]]]; discriminate.
Qed.

Lemma post_ok_keep fs fs' t segs :
  post_ok fs t segs ->
  (forall f, In f (flat_map seg_fileNames segs) -> fs_read fs' f = fs_read fs f) ->
  post_ok fs' t segs.
Proof.
  intros [HF HN] Hk. split; [|done]. rewrite Forall_forall in HF |- *. intros s Hs.
  destruct (HF s Hs) as ((S1 & S2 & S3) & Hi & Hu). apply list_elem_of_In in Hs.
  split_and!; auto; unfold stored.
  rewrite !Hk; [auto| |]; apply in_flat_map; exists s; simpl; auto.
Qed.

Lemma txn_commit_spec tx db r db' X :
  tx_closed tx = false -> db_closed db = false -> db_orphanedFiles db = false ->
  0 <= db_txid db -> db_txid db + 2 < 2 ^ 32 ->
  post_ok (db_fs db) (db_txid db) (m_Segments (db_manifest db)) ->
  (forall i, is_Some (fs_read (db_fs db) (FManifest i)) -> i <= db_txid db) ->
  (forall g, db_refs db g = X g + cnt g (manifest_fileNames (db_manifest db))) ->
  (forall g, 0 <= X g) ->
  txn_Commit tx db = Done r db' ->
  (only_fs_txid db db' /\ db_txid db <= db_txid db' <= db_txid db + 2 /\
   fs_frame (db_txid db) (db_fs db) (db_fs db')) \/
  (r = Ok tt /\ db_txid db < db_txid db' <= db_txid db + 2 /\
   m_ID (db_manifest db') = db_txid db' /\
   post_ok (db_fs db') (db_txid db') (m_Segments (db_manifest db')) /\
   fs_read (db_fs db') (FManifest (db_txid db')) = Some (CManifest (manifest_descs (db_manifest db'))) /\
   (forall i, is_Some (fs_read (db_fs db') (FManifest i)) -> i <= db_txid db') /\
   (forall g, db_refs db' g = X g + cnt g (manifest_fileNames (db_manifest db'))) /\
   db_closed db' = false /\ db_orphanedFiles db' = false).
Proof.
  intros Htx Hcl Hor H0 H2 Hpost Hman Hrefs HX H.
  unfold txn_Commit in H. rewrite Htx in H. unfold commit in H. munfold. cbn in H. rewrite Hcl in H.
  destruct (txn_prepareCommit tx (db_manifest db) db) as [[m|e] db1| |] eqn:Hp; [| |discriminate|discriminate].
  2:{ cbn in H. injection H as <- <-. left.
      destruct (prepare_spec _ _ _ _ _ H0 ltac:(lia) (post_pre _ _ _ Hpost) Hp) as (? & ? & ? & _). split; [done|split; [lia|done]]. }
  destruct (prepare_spec _ _ _ _ _ H0 ltac:(lia) (post_pre _ _ _ Hpost) Hp) as (Hdb1 & Ht1 & Hfr1 & Hpre1).
  specialize (Hpre1 m eq_refl).
  cbn in H. rewrite wrap32_small in H by lia.
  set (t1 := db_txid db1) in *.
  assert (Hpre1' : pre_ok (db_fs (set_txid (t1 + 1) db1)) (t1 + 1 - 1) (m_Segments m))
    by (replace (t1 + 1 - 1) with t1 by lia; by destruct db1).
  destruct (save_updates (t1 + 1) (m_Segments m) (set_txid (t1 + 1) db1)) as [[segs|e] db2| |] eqn:Hs;
    [| |discriminate|discriminate].
  2:{ cbn in H. injection H as <- <-. left.
      destruct (save_updates_spec _ _ _ _ _ Hpre1' Hs) as (Hdb2 & Hf2 & Hr2 & _).
      split; [|split].
      - eapply only_fs_txid_trans; [exact Hdb1|]. rewrite Hdb2. by destruct db1.
      - rewrite Hdb2. simpl. lia.
      - apply (fs_frame_trans _ t1 _ (db_fs db1)); [lia|exact Hfr1|]. split; [exact Hf2|]. intros f Hf.
        apply Hr2. intros x _ ->. simpl in Hf. lia. }
  destruct (save_updates_spec _ _ _ _ _ Hpre1' Hs) as (Hdb2 & Hf2 & Hr2 & Hs2).
  destruct (Hs2 segs eq_refl) as (Hpost2 & Hmap2).
  assert (Hfr2 : fs_frame (db_txid db) (db_fs db) (db_fs db2)).
  { apply (fs_frame_trans _ t1 _ (db_fs db1)); [lia|exact Hfr1|]. split; [exact Hf2|]. intros f Hf.
    apply Hr2. intros x _ ->. simpl in Hf. lia. }
  assert (Hx2 : db_txid db2 = t1 + 1) by (rewrite Hdb2; done).
  assert (Hcl2 : db_closed db2 = false /\ db_orphanedFiles db2 = false /\ db_refs db2 = db_refs db).
  { rewrite Hdb2. unfold only_fs_txid in Hdb1. rewrite Hdb1. by destruct db. }
  cbn in H. unfold manifest_Save in H. cbn in H. unfold write_file in H.
  destruct (fs_write (FManifest (t1 + 1)) (CManifest (map (fun s => (seg_ID s, seg_UpdateID s)) segs))
              (db_fs db2)) as [fs3|e] eqn:W; cbn in H.
  2:{ injection H as <- <-. left. split; [|split; [lia|exact Hfr2]].
      eapply only_fs_txid_trans; [exact Hdb1|]. rewrite Hdb2. by destruct db1. }
  set (new := {| m_ID := t1 + 1; m_Segments := segs |}) in *.
  set (db3 := set_refs (fold_left (fun r f => bump_ref 1 f r) (flat_map seg_fileNames segs) (db_refs db2))
                (set_fs fs3 db2)) in H.
  destruct (dec_names_spec (manifest_fileNames (db_manifest db)) db3
              (fun g => X g + cnt g (manifest_fileNames new))) as (fs4 & refs' & Hd & HR & Hf4 & Hch4).
  { subst db3. simpl. by destruct Hcl2 as (_ & ? & _). }
  { intros g. subst db3. simpl. change (fold_left _ _ _) with (add_refs (manifest_fileNames new) (db_refs db2)).
    rewrite add_refs_spec. destruct Hcl2 as (_ & _ & ->). rewrite Hrefs. lia. }
  unfold decFileRefs in H. rewrite Hd in H.
  injection H as <- <-. right. simpl.
  assert (H4 : forall f, ~ f ∈ manifest_fileNames (db_manifest db) \/ 0 < cnt f (manifest_fileNames new) ->
               fs_read fs4 f = fs_read fs3 f).
  { intros f Hf. destruct (decide (fs_read fs4 f = fs_read (db_fs db3) f)) as [E|E]; [exact E|].
    destruct (Hch4 f E) as [Hin Hle]. specialize (HX f). destruct Hf; [done|lia]. }
  assert (H3 : forall f, f <> FManifest (t1 + 1) -> fs_read fs3 f = fs_read (db_fs db2) f).
  { intros f Hf. rewrite (fs_read_write _ _ _ _ _ W). by rewrite decide_False. }
  split; [done|]. split; [lia|]. split; [done|]. rewrite Hx2.
  split.
  { apply (post_ok_keep fs3).
    - apply (post_ok_keep (db_fs db2)); [exact Hpost2|]. intros f Hf. apply H3. intros ->.
      apply in_flat_map in Hf as (s0 & _ & Hs0). simpl in Hs0. destruct Hs0 as [E|[E|[]]]; discriminate.
    - intros f Hf. apply H4. right. apply cnt_pos. by apply list_elem_of_In. }
  split.
  { rewrite H4 by (left; apply manifest_not_seg_file). rewrite (fs_read_write _ _ _ _ _ W).
    by rewrite decide_True. }
  split.
  { intros i Hi. rewrite H4 in Hi by (left; apply manifest_not_seg_file).
    destruct (decide (i = t1 + 1)) as [->|Hne]; [lia|].
    rewrite H3 in Hi by congruence. destruct Hfr2 as [_ Hfr2]. rewrite Hfr2 in Hi by (simpl; tauto).
    specialize (Hman i Hi). lia. }
  split; [exact HR|]. destruct Hcl2 as (? & ? & _). done.
Qed.

Lemma post_ok_frame t fs fs' segs : fs_frame t fs fs' -> post_ok fs t segs -> post_ok fs' t segs.
Proof.
  intros [_ HR] HP. apply (post_ok_keep fs); [done|]. intros f Hf. apply HR.
  destruct HP as [HF _]. rewrite Forall_forall in HF.
  apply in_flat_map in Hf as (s & Hs & Hf). apply list_elem_of_In in Hs.
  destruct (HF s Hs) as (_ & Hi & Hu). simpl in Hf. destruct Hf as [<-|[<-|[]]]; simpl; lia.
Qed.

Lemma newSnapshot_eq db :
  newSnapshot db = Done (Ok (mkSnapshot (db_manifest db)))
    (set_numSnapshots (db_numSnapshots db + 1)
       (set_refs (add_refs (manifest_fileNames (db_manifest db)) (db_refs db)) db)).
Proof. reflexivity. Qed.

Lemma InvX_newSnapshot c X db r db' :
  InvX c X db -> newSnapshot db = Done r db' ->
  r = Ok (mkSnapshot (db_manifest db)) /\ db_txid db' = db_txid db /\ db_manifest db' = db_manifest db /\
  InvX c (fun g => X g + cnt g (manifest_fileNames (db_manifest db))) db'.
Proof.
  rewrite newSnapshot_eq. intros (H1 & H2 & H3 & H4 & H5 & H6 & H7) [= <- <-].
  split; [done|]. split; [done|]. split; [done|].
  refine (conj H1 (conj H2 (conj H3 (conj H4 (conj H5 (conj H6 _)))))).
  intros g. simpl. rewrite add_refs_spec, H7. lia.
Qed.

Lemma InvX_closeSnapshot c X m db :
  InvX c (fun g => X g + cnt g (manifest_fileNames m)) db -> (forall g, 0 <= X g) ->
  exists db', closeSnapshot (mkSnapshot m) db = Done (Ok tt) db' /\
    db_txid db' = db_txid db /\ db_manifest db' = db_manifest db /\ InvX c X db'.
Proof.
  intros (H1 & H2 & H3 & H4 & H5 & H6 & H7) HX.
  destruct (dec_names_spec (manifest_fileNames m) db
              (fun g => X g + cnt g (manifest_fileNames (db_manifest db))))
    as (fs' & refs' & Hd & HR & Hf & Hch); [done|intros g; rewrite H7; lia|].
  unfold closeSnapshot, decFileRefs. simpl. munfold. rewrite Hd.
  eexists. split; [reflexivity|]. simpl.
  assert (Hk : forall f, f ∈ manifest_fileNames (db_manifest db) \/ (exists i, f = FManifest i) ->
               fs_read fs' f = fs_read (db_fs db) f).
  { intros f Hf'. destruct (decide (fs_read fs' f = fs_read (db_fs db) f)) as [E|E]; [done|].
    destruct (Hch f E) as [Hin Hle]. destruct Hf' as [Hf'|[i ->]].
    - pose proof (cnt_pos _ _ Hf'). specialize (HX f). lia.
    - exfalso. by apply (manifest_not_seg_file i m). }
  split; [done|]. split; [done|].
  refine (conj H1 (conj H2 (conj H3 (conj _ (conj _ (conj _ _)))))).
  - apply (post_ok_keep (db_fs db)); [done|]. intros f Hf'. apply Hk. left. by apply list_elem_of_In.
  - intros i. rewrite Hk by eauto. apply H5.
  - rewrite Hk by eauto. destruct H6 as [H6|(? & ? & H6)]; [by left|right; split_and!; try done].
    intros i. rewrite Hk by eauto. apply H6.
  - exact HR.
Qed.

Lemma InvX_commit c X tx db r db' :
  InvX c X db -> (forall g, 0 <= X g) -> tx_closed tx = false -> db_txid db + 2 < 2 ^ 32 ->
  txn_Commit tx db = Done r db' ->
  InvX c X db' /\ db_txid db <= db_txid db' <= db_txid db + 2.
Proof.
  intros (H1 & H2 & H3 & H4 & H5 & H6 & H7) HX Htx Hb H.
  destruct (txn_commit_spec tx db r db' X) as [(Hdb & Ht & Hfr)|(-> & [Ht1 Ht2] & Hid & Hp & Hm & Hs & HR & Hc & Ho)];
    try done; try lia.
  { intros i Hi. specialize (H5 i Hi). lia. }
  - split; [|done].
    assert (Hman : forall i, fs_read (db_fs db') (FManifest i) = fs_read (db_fs db) (FManifest i)).
    { intros i. destruct Hfr as [_ Hfr]. apply Hfr. simpl. tauto. }
    rewrite Hdb. unfold InvX. simpl.
    refine (conj H1 (conj H2 (conj _ (conj _ (conj _ (conj _ H7)))))); [lia| | |].
    + apply (post_ok_mono _ (db_txid db)); [lia|]. by apply (post_ok_frame _ (db_fs db)).
    + intros i. rewrite Hman. apply H5.
    + rewrite Hman. destruct H6 as [?|(? & ? & H6)]; [by left|right; split_and!; try done].
      intros i. by rewrite Hman.
  - split; [|lia]. unfold InvX. rewrite Hid.
    refine (conj Hc (conj Ho (conj _ (conj Hp (conj _ (conj _ HR)))))); [lia| |by left].
    intros i Hi. specialize (Hs i Hi). lia.
Qed.

Lemma InvX_Transaction c db r db1 :
  InvX c (fun _ => 0) db -> Transaction db = Done r db1 ->
  db_txid db1 = db_txid db /\
  ((exists e, r = Err e /\ InvX c (fun _ => 0) db1) \/
   (r = Ok (mkTxn (mkSnapshot (db_manifest db)) [] [] false) /\
    InvX c (fun g => cnt g (manifest_fileNames (db_manifest db))) db1)).
Proof.
  intros HI H. unfold Transaction in H.
  unfold mbind at 1, M_bind at 1 in H.
  destruct (newSnapshot db) as [[snap|e] dbs| |] eqn:Hn; [|discriminate|discriminate|discriminate].
  destruct (InvX_newSnapshot _ _ _ _ _ HI Hn) as ([= ->] & Hts & Hms & HIs).
  assert (HIs' : InvX c (fun g => 0 + cnt g (manifest_fileNames (db_manifest db))) dbs) by exact HIs.
  assert (Hcl : db_closed dbs = false) by apply HIs.
  munfold. cbn in H. rewrite Hcl in H.
  destruct (db_wlock dbs).
  - cbn in H. injection H as <- <-. split; [simpl; congruence|]. right. split; [done|]. exact HIs.
  - cbn in H. destruct (fs_lock (db_fs dbs)).
    + cbn in H. injection H as <- <-. split; [simpl; congruence|]. right. split; [done|]. exact HIs.
    + unfold closeSnapshot_locked in H. cbn in H. discriminate.
Qed.

Lemma txn_Add_snap d ts tx0 tx :
  txn_Add d ts tx0 = Ok tx -> tx_snapshot tx = tx_snapshot tx0 /\ tx_closed tx = false.
Proof.
  unfold txn_Add. destruct (tx_closed tx0); [discriminate|]. destruct (d =? 0); [discriminate|].
  case_bool_decide; [discriminate|].
  destruct (_ || _); intros [= <-]; done.
Qed.

Lemma InvX_txn_Close c X m tx db :
  InvX c (fun g => X g + cnt g (manifest_fileNames m)) db -> (forall g, 0 <= X g) ->
  tx_closed tx = false -> tx_snapshot tx = mkSnapshot m ->
  exists tx' db', txn_Close tx db = Done (Ok tx') db' /\ db_txid db' = db_txid db /\ InvX c X db'.
Proof.
  intros HI HX Hc Hs. unfold txn_Close. rewrite Hc, Hs.
  destruct (InvX_closeSnapshot c X m db HI HX) as (db1 & Hc1 & Ht1 & _ & HI1).
  unfold mbind at 1, M_bind at 1. rewrite Hc1.
  unfold closeTransaction. munfold. eexists _, _. split; [reflexivity|]. split; [done|]. exact HI1.
Qed.

Lemma InvX_DB_Add c d ts db r db' :
  InvX c (fun _ => 0) db -> db_txid db + 2 < 2 ^ 32 -> DB_Add d ts db = Done r db' ->
  InvX c (fun _ => 0) db' /\ db_txid db <= db_txid db' <= db_txid db + 2.
Proof.
  intros HI Hb H. unfold DB_Add, RunInTransaction in H.
  unfold mbind at 1, M_bind at 1 in H.
  destruct (Transaction db) as [[txn|e] db1| |] eqn:Ht; [|injection H as <- <-|discriminate|discriminate].
  2:{ destruct (InvX_Transaction _ _ _ _ HI Ht) as (Ht1 & [(e' & [= <-] & HI1)|([=] & _)]).
      split; [done|lia]. }
  destruct (InvX_Transaction _ _ _ _ HI Ht) as (Ht1 & [(e' & [=] & _)|([= ->] & HI1)]).
  set (m := db_manifest db) in *.
  assert (HI1' : InvX c (fun g => 0 + cnt g (manifest_fileNames m)) db1) by exact HI1.
  unfold batch_call in H.
  destruct (txn_Add d ts (mkTxn (mkSnapshot m) [] [] false)) as [tx'|e] eqn:Ha.
  - destruct (txn_Add_snap _ _ _ _ Ha) as [Hs Hc]. simpl in Hs.
    unfold attempt, mbind, M_bind in H.
    assert (Hcx : forall g, 0 <= cnt g (manifest_fileNames m)) by (intros; apply cnt_nonneg).
    destruct (txn_Commit tx' db1) as [res db2| |] eqn:Hcm; [|discriminate|discriminate].
    destruct (InvX_commit c _ tx' db1 res db2 HI1 Hcx Hc ltac:(lia) Hcm) as [HI2 Ht2].
    assert (HI2' : InvX c (fun g => 0 + cnt g (manifest_fileNames m)) db2) by exact HI2.
    destruct (InvX_txn_Close c (fun _ => 0) m tx' db2 HI2' ltac:(done) Hc Hs) as (tx'' & db3 & Hcl & Ht3 & HI3).
    rewrite Hcl in H. unfold lift in H. injection H as <- <-. split; [done|lia].
  - destruct (InvX_txn_Close c (fun _ => 0) m (mkTxn (mkSnapshot m) [] [] false) db1 HI1' ltac:(done)
                eq_refl eq_refl) as (tx'' & db3 & Hcl & Ht3 & HI3).
    unfold mbind, M_bind in H. rewrite Hcl in H. unfold throw in H. injection H as <- <-. split; [done|lia].
Qed.

Lemma InvX_run_adds c ops db r db' :
  InvX c (fun _ => 0) db -> db_txid db + 2 * Z.of_nat (length ops) < 2 ^ 32 ->
  run_adds ops db = Done r db' -> InvX c (fun _ => 0) db'.
Proof.
  revert db. induction ops as [|[d ts] ops IH]; intros db HI Hb H.
  - simpl in H. unfold mret, M_ret in H. by injection H as <- <-.
  - simpl in H. unfold mbind at 1, M_bind at 1, attempt in H.
    destruct (DB_Add d ts db) as [r1 db1| |] eqn:Ha; [|discriminate|discriminate].
    destruct (InvX_DB_Add c d ts db r1 db1 HI ltac:(simpl in Hb; lia) Ha) as [HI1 Ht1].
    apply (IH db1); [done| |done]. simpl in Hb. lia.
Qed.

Lemma fold_max_ge l a : a <= fold_left Z.max l a /\ Forall (fun i => i <= fold_left Z.max l a) l.
Proof.
  revert a. induction l as [|x l IH]; intros a; simpl; [split; [lia|done]|].
  destruct (IH (Z.max a x)) as [H1 H2]. split; [lia|]. constructor; [lia|done].
Qed.

Lemma fold_max_in l a : fold_left Z.max l a = a \/ fold_left Z.max l a ∈ l.
Proof.
  revert a. induction l as [|x l IH]; intros a; simpl; [by left|].
  destruct (IH (Z.max a x)) as [->|H]; [|right; set_solver].
  destruct (Z.max_spec a x) as [[_ ->]|[_ ->]]; [right; set_solver|by left].
Qed.

Lemma max_id_fold l a :
  fold_left (fun acc i => match acc with None => Some i | Some j => Some (Z.max j i) end) l (Some a) =
  Some (fold_left Z.max l a).
Proof. revert a. induction l; intros; simpl; auto. Qed.

Lemma max_id_None l : max_id l = None -> l = [].
Proof. unfold max_id. destruct l as [|x l]; simpl; [done|]. by rewrite max_id_fold. Qed.

Lemma max_id_Some l m : max_id l = Some m -> m ∈ l /\ forall i, i ∈ l -> i <= m.
Proof.
  unfold max_id. destruct l as [|x l]; simpl; [done|]. rewrite max_id_fold. intros [= <-].
  destruct (fold_max_ge l x) as [H1 H2]. split.
  - destruct (fold_max_in l x) as [->|H]; set_solver.
  - intros i Hi. apply elem_of_cons in Hi as [->|Hi]; [done|].
    rewrite Forall_forall in H2. auto.
Qed.

Lemma max_id_spec l m : m ∈ l -> (forall i, i ∈ l -> i <= m) -> max_id l = Some m.
Proof.
  intros Hm Hall. destruct (max_id l) as [m'|] eqn:E.
  - destruct (max_id_Some l m' E) as [H1 H2]. specialize (H2 m Hm). specialize (Hall m' H1).
    f_equal. lia.
  - apply max_id_None in E. subst. set_solver.
Qed.

Lemma manifest_ids_spec i l : i ∈ manifest_ids l <-> is_Some (lookup_file (FManifest i) l).
Proof.
  induction l as [|[f c] l IH]; simpl.
  - unfold manifest_ids. simpl. split; [set_solver|by intros []].
  - unfold manifest_ids in *. simpl. rewrite elem_of_app, IH.
    destruct (decide (FManifest i = f)) as [<-|Hne].
    + simpl. split; [done|]. intros _. left. set_solver.
    + destruct f; simpl; split; try (intros [Hx|Hx]; [set_solver|done]); auto.
Qed.

Lemma open_segments_stored fs segs :
  Forall (stored fs) segs ->
  open_segments fs (map (fun p => mkSegment p.1 p.2 [] [] false)
                       (map (fun s => (seg_ID s, seg_UpdateID s)) segs)) = Ok segs.
Proof.
  induction segs as [|s segs IH]; intros HF; [done|].
  apply Forall_cons in HF as [(Hd & Hm & Hdi) HF]. simpl.
  unfold seg_Open. simpl. rewrite Hd, Hm, IH by done.
  destruct s; simpl in *; by subst.
Qed.

Lemma open_segments_inv fs stubs segs :
  open_segments fs stubs = Ok segs ->
  Forall (stored fs) segs /\
  map (fun s => (seg_ID s, seg_UpdateID s)) segs = map (fun s => (seg_ID s, seg_UpdateID s)) stubs.
Proof.
  revert segs. induction stubs as [|t stubs IH]; intros segs H; simpl in H.
  - injection H as <-. done.
  - unfold seg_Open in H.
    destruct (fs_read fs (FSegData (seg_ID t))) as [[|items|]|] eqn:Hd; try discriminate.
    destruct (fs_read fs (FSegMeta (seg_ID t) (seg_UpdateID t))) as [[| |del]|] eqn:Hm; try discriminate.
    destruct (open_segments fs stubs) as [r|e] eqn:Ho; [|discriminate].
    injection H as <-. destruct (IH r eq_refl) as [HF HM]. split.
    + constructor; [|done]. unfold stored. simpl. auto.
    + simpl. by rewrite HM.
Qed.

Lemma load_full_InvX c X db : InvX c X db -> load_full (db_fs db) c = Ok (db_manifest db).
Proof.
  intros (_ & _ & _ & [HF _] & Hle & Hm & _).
  assert (HS : Forall (stored (db_fs db)) (m_Segments (db_manifest db))).
  { eapply Forall_impl; [exact HF|]. intros s []; done. }
  unfold load_full, manifest_Load.
  destruct Hm as [Hm|(-> & Hdb & Hnone)].
  - rewrite (max_id_spec _ (m_ID (db_manifest db))).
    + rewrite Hm. simpl. unfold manifest_descs. rewrite open_segments_stored by done.
      by destruct (db_manifest db).
    + apply manifest_ids_spec. unfold fs_read in Hm. by rewrite Hm.
    + intros i Hi. apply Hle. by apply manifest_ids_spec.
  - replace (max_id (manifest_ids (fs_files (db_fs db)))) with (@None Z).
    + by rewrite Hdb.
    + symmetry. destruct (manifest_ids (fs_files (db_fs db))) as [|i l] eqn:E; [done|].
      assert (Hi : i ∈ manifest_ids (fs_files (db_fs db))) by (rewrite E; set_solver).
      apply manifest_ids_spec in Hi. unfold fs_read in Hnone. rewrite Hnone in Hi.
      by destruct Hi.
Qed.

Lemma Open_InvX fs c opts db :
  Open fs c opts = Ok db ->
  0 <= m_ID (db_manifest db) ->
  Forall (fun s => seg_ID s <= m_ID (db_manifest db) /\ seg_UpdateID s <= m_ID (db_manifest db))
    (m_Segments (db_manifest db)) ->
  NoDup (map seg_ID (m_Segments (db_manifest db))) ->
  InvX c (fun _ => 0) db /\ db_fs db = fs /\ db_txid db = m_ID (db_manifest db).
Proof.
  unfold Open, load_full.
  destruct (manifest_Load fs c) as [m0|e] eqn:Hl; [|discriminate].
  destruct (open_segments fs (m_Segments m0)) as [segs|e] eqn:Ho; [|discriminate].
  intros [= <-]. simpl. intros H0 HB HN.
  destruct (open_segments_inv _ _ _ Ho) as [HS HM].
  split; [|done].
  assert (HP : post_ok fs (m_ID m0) segs).
  { split; [|done]. apply Forall_and; split; [done|exact HB]. }
  unfold manifest_Load in Hl.
  destruct (max_id (manifest_ids (fs_files fs))) as [id|] eqn:Hx.
  - destruct (max_id_Some _ _ Hx) as [Hin Hall].
    destruct (fs_read fs (FManifest id)) as [[descs| |]|] eqn:Hr; try discriminate.
    injection Hl as <-. simpl in *.
    split; [done|]. split; [done|]. split; [simpl; lia|]. split; [exact HP|]. split; [|split].
    + intros i Hi. apply Hall, manifest_ids_spec. exact Hi.
    + left. simpl. rewrite Hr. unfold manifest_descs. simpl. rewrite HM, map_map. simpl.
      f_equal. f_equal. clear. induction descs as [|[a b] descs IH]; simpl; congruence.
    + intros g. cbn -[add_refs]. rewrite add_refs_spec. lia.
  - destruct c; [|discriminate]. injection Hl as <-. simpl in *.
    destruct segs as [|s segs]; [|discriminate].
    split; [done|]. split; [done|]. split; [simpl; lia|]. split; [exact HP|]. split; [|split].
    + intros i Hi. apply (proj2 (manifest_ids_spec i _)) in Hi. simpl in Hi.
      apply max_id_None in Hx. rewrite Hx in Hi. set_solver.
    + right. split; [done|]. split; [done|]. intros i.
      destruct (fs_read fs (FManifest i)) eqn:Hr; [|done]. exfalso.
      assert (Hi : i ∈ manifest_ids (fs_files fs)) by (apply manifest_ids_spec; unfold fs_read in Hr; by rewrite Hr).
      apply max_id_None in Hx. rewrite Hx in Hi. set_solver.
    + intros g. cbn -[add_refs]. rewrite add_refs_spec. lia.
Qed.

Lemma Search_ok q db :
  db_orphanedFiles db = false ->
  exists db', Search q db = Done (Ok (search_manifest (db_manifest db) q)) db'.
Proof.
  intros Ho. unfold Search. unfold mbind at 1, M_bind at 1. rewrite newSnapshot_eq.
  set (db1 := set_numSnapshots _ _).
  destruct (dec_names_spec (manifest_fileNames (db_manifest db)) db1 (db_refs db))
    as (fs' & refs' & Hd & _).
  - subst db1. by destruct db.
  - intros g. subst db1. simpl. apply add_refs_spec.
  - unfold closeSnapshot, decFileRefs. simpl. munfold. rewrite Hd. eexists. reflexivity.
Qed.

Lemma Close_fs db r db' : Close db = Done r db' -> db_fs db' = db_fs db.
Proof.
  unfold Close, close_chan. munfold. destruct db as [fs wl tx m cl cg mr orph ns nt refs opts]; simpl.
  destruct cg, mr, orph; simpl; try discriminate. destruct wl; simpl; by intros [= _ <-].
Qed.

(** C4: reopening the directory after [Open]; [Add]*; [Close] gives back
    the manifest of the DB before [Close], so every [Search] answers the
    same before and after.  This holds when the directory is well formed
    (segment ids and update ids not above the manifest id, distinct
    segment ids) and the 32-bit [txid] does not wrap: each [Add] uses at
    most two transaction ids.  The [Add]s may succeed or fail; the runs
    covered are those that return ([run_adds ... = Done ...]): an [Add]
    whose write lock cannot be taken never returns (see [Transaction]). *)
Theorem reopen_round_trip fs c opts opts' ops db0 r dbn r' dbc :
  Open fs c opts = Ok db0 ->
  0 <= m_ID (db_manifest db0) ->
  Forall (fun s => seg_ID s <= m_ID (db_manifest db0) /\ seg_UpdateID s <= m_ID (db_manifest db0))
    (m_Segments (db_manifest db0)) ->
  NoDup (map seg_ID (m_Segments (db_manifest db0))) ->
  m_ID (db_manifest db0) + 2 * Z.of_nat (length ops) < 2 ^ 32 ->
  run_adds ops db0 = Done r dbn ->
  Close dbn = Done r' dbc ->
  exists db', Open (db_fs dbc) c opts' = Ok db' /\ db_manifest db' = db_manifest dbn /\
    forall q, result_of (Search q db') = Some (Ok (search_manifest (db_manifest dbn) q)) /\
              result_of (Search q dbn) = Some (Ok (search_manifest (db_manifest dbn) q)).
Proof.
  intros Ho H0 HB HN Hw Hr Hc.
  destruct (Open_InvX fs c opts db0 Ho H0 HB HN) as (HI0 & _ & Ht0).
  assert (HIn : InvX c (fun _ => 0) dbn) by (apply (InvX_run_adds c ops db0 r dbn); [done|lia|done]).
  rewrite (Close_fs _ _ _ Hc). unfold Open. rewrite (load_full_InvX _ _ _ HIn).
  eexists. split; [reflexivity|]. split; [done|]. intros q. split.
  - destruct (Search_ok q (init (db_fs dbn) (default DefaultOptions opts') (db_manifest dbn))) as [db' Hs];
      [done|]. rewrite Hs. done.
  - destruct HIn as (_ & Horph & _). destruct (Search_ok q dbn Horph) as [db' Hs]. by rewrite Hs.
Qed.

(** The scenario of [TestDB_Add] meets the hypotheses of C4:
    [Search([9])] is empty and [Search([3])] is [{1: 1}] before and after
    reopening. *)
Lemma reopen_round_trip_witness :
  search_manifest (db_manifest rt_dbn) [9] = (∅ : gmap Z Z) /\
  search_manifest (db_manifest rt_dbn) [3] = ({[1 := 1]} : gmap Z Z) /\
  exists db', Open (db_fs rt_dbc) true None = Ok db' /\ db_manifest db' = db_manifest rt_dbn /\
    forall q, result_of (Search q db') = Some (Ok (search_manifest (db_manifest rt_dbn) q)) /\
              result_of (Search q rt_dbn) = Some (Ok (search_manifest (db_manifest rt_dbn) q)).
Proof.
  split; [vm_compute; reflexivity|]. split; [vm_compute; reflexivity|].
  apply (reopen_round_trip empty_fs true None None rt_ops fresh_db (Ok tt) rt_dbn (Ok tt) rt_dbc).
  - vm_compute. reflexivity.
  - simpl. lia.
  - constructor.
  - constructor.
  - simpl. lia.
  - apply done_state_of. vm_compute. reflexivity.
  - apply done_state_of. vm_compute. reflexivity.
Defined.

(** C4 fails without the bound on [txid]: from a directory whose manifest
    id is [2^32 - 1], one committed [Add(1, [7])] wraps [txid] to 0 and
    publishes manifest 1; after [Close] and [Open] the stale manifest
    [2^32 - 1] wins, and [Search([7])] changes from [{1: 1}] to [{}]. *)
Lemma reopen_round_trip_wraps :
  Open wrap_fs false None = Ok wrap_db0 /\
  result_of (run_adds [(1, [7])] wrap_db0) = Some (Ok tt) /\
  result_of (Close wrap_dbn) = Some (Ok tt) /\
  Open (db_fs wrap_dbc) false None = Ok wrap_reopened /\
  result_of (Search [7] wrap_dbn) = Some (Ok ({[1 := 1]} : gmap Z Z)) /\
  result_of (Search [7] wrap_reopened) = Some (Ok (∅ : gmap Z Z)).
Proof.
  split; [vm_compute; reflexivity|]. split; [vm_compute; reflexivity|].
  split; [vm_compute; reflexivity|]. split; [vm_compute; reflexivity|].
  split; vm_compute; reflexivity.
Qed.

(** ** Manifest ids, closed DBs, [Open], [autoCompact], [RunInTransaction] *)

Lemma dec_names_txid names db r db' : dec_names names db = Done r db' -> db_txid db' = db_txid db.
Proof.
  revert db. induction names as [|f names IH]; intros db H; simpl in H; munfold.
  - by injection H as _ <-.
  - destruct (decide _).
    + unfold send_orphan in H. destruct (db_orphanedFiles _); [discriminate|].
      rewrite (IH _ H). by destruct db.
    + rewrite (IH _ H). by destruct db.
Qed.

Lemma save_updates_txid id segs db r db' : save_updates id segs db = Done r db' -> db_txid db' = db_txid db.
Proof.
  revert db r db'. induction segs as [|s segs IH]; intros db r db' H; simpl in H; munfold.
  - by injection H as _ <-.
  - unfold seg_SaveUpdate in H. munfold. destruct (seg_dirty s).
    + destruct (fs_write _ _ _) as [fs'|e]; cbn in H; [|by injection H as _ <-].
      destruct (save_updates id segs _) as [[segs'|e] db2| |] eqn:Hs; try discriminate;
        injection H as _ <-; rewrite (IH _ _ _ Hs); by destruct db.
    + destruct (save_updates id segs db) as [[segs'|e] db2| |] eqn:Hs; try discriminate;
        injection H as _ <-; exact (IH _ _ _ Hs).
Qed.

Lemma prepare_txid tx base db m db1 :
  txn_prepareCommit tx base db = Done (Ok m) db1 ->
  db_txid db1 = match buffer_items (tx_buf tx) with [] => db_txid db | _ => wrap32 (db_txid db + 1) end.
Proof.
  unfold txn_prepareCommit. destruct (buffer_items (tx_buf tx)) as [|it its]; munfold.
  - by intros [= _ <-].
  - unfold createSegment, CreateSegment. munfold. cbn.
    destruct (fs_write _ _ _); cbn; [|discriminate].
    destruct (fs_write _ _ _); cbn; [|discriminate]. by intros [= _ <-].
Qed.

Lemma commit_ok_ids tx db db' :
  txn_Commit tx db = Done (Ok tt) db' ->
  m_ID (db_manifest db') = db_txid db' /\
  m_ID (db_manifest db') =
    wrap32 (match buffer_items (tx_buf tx) with [] => db_txid db | _ => wrap32 (db_txid db + 1) end + 1).
Proof.
  unfold txn_Commit. destruct (tx_closed tx); [unfold throw; discriminate|].
  unfold commit. munfold. cbn.
  destruct (db_closed db); [discriminate|]. intros H.
  destruct (txn_prepareCommit tx (db_manifest db) db) as [[m|e] db1| |] eqn:Hp; try discriminate.
  rewrite <- (prepare_txid _ _ _ _ _ Hp).
  destruct (save_updates _ _ _) as [[segs|e] db2| |] eqn:Hs; try discriminate.
  pose proof (save_updates_txid _ _ _ _ _ Hs) as Ht2. cbn in Ht2.
  unfold manifest_Save in H. munfold. cbn in H.
  destruct (fs_write _ _ _); try discriminate. cbn in H.
  destruct (decFileRefs _ _) as [[[]|e] db3| |] eqn:Hd; try discriminate.
  injection H as <-. cbn. pose proof (dec_names_txid _ _ _ _ Hd) as Ht3. cbn in Ht3.
  split; [congruence|done].
Qed.

Lemma dec_names_ok names db r db' :
  dec_names names db = Done r db' ->
  r = Ok tt /\ db_manifest db' = db_manifest db /\ db_txid db' = db_txid db.
Proof.
  revert db. induction names as [|f names IH]; intros db H; simpl in H; munfold.
  - injection H as <- <-. done.
  - destruct (decide _).
    + unfold send_orphan in H. destruct (db_orphanedFiles _); [discriminate|].
      destruct (IH _ H) as (-> & -> & ->). destruct db; split_and!; reflexivity.
    + destruct (IH _ H) as (-> & -> & ->). destruct db; split_and!; reflexivity.
Qed.

Lemma save_updates_manifest id segs db r db' :
  save_updates id segs db = Done r db' -> db_manifest db' = db_manifest db.
Proof.
  revert db r db'. induction segs as [|s segs IH]; intros db r db' H; simpl in H; munfold.
  - by injection H as _ <-.
  - unfold seg_SaveUpdate in H. munfold. destruct (seg_dirty s).
    + destruct (fs_write _ _ _) as [fs'|e]; cbn in H; [|by injection H as _ <-].
      destruct (save_updates id segs _) as [[segs'|e] db2| |] eqn:Hs; try discriminate;
        injection H as _ <-; rewrite (IH _ _ _ Hs); by destruct db.
    + destruct (save_updates id segs db) as [[segs'|e] db2| |] eqn:Hs; try discriminate;
        injection H as _ <-; exact (IH _ _ _ Hs).
Qed.

Lemma prepare_keep tx base db r db1 :
  txn_prepareCommit tx base db = Done r db1 ->
  db_manifest db1 = db_manifest db /\
  (db_txid db1 = db_txid db \/ db_txid db1 = wrap32 (db_txid db + 1)).
Proof.
  unfold txn_prepareCommit. destruct (buffer_items (tx_buf tx)) as [|it its]; munfold.
  - intros [= _ <-]. auto.
  - unfold createSegment, CreateSegment. munfold. cbn.
    destruct (fs_write _ _ _); cbn; [|intros [= _ <-]; destruct db; simpl; auto].
    destruct (fs_write _ _ _); cbn; intros [= _ <-]; destruct db; simpl; auto.
Qed.

(** A failed [db.commit] publishes nothing, but may have taken a
    transaction id, plus those its callback took. *)
Lemma commit_err_ids p k db e db' :
  (forall r db1, p (db_manifest db) db = Done r db1 ->
     db_manifest db1 = db_manifest db /\ db_txid db <= db_txid db1 <= db_txid db + k) ->
  0 <= db_txid db -> 0 <= k -> db_txid db + k + 1 < 2 ^ 32 ->
  commit p db = Done (Err e) db' ->
  db_manifest db' = db_manifest db /\ db_txid db <= db_txid db' <= db_txid db + k + 1.
Proof.
  intros Hp H0 Hk Hb. unfold commit. munfold. cbn.
  destruct (db_closed db); [intros [= _ <-]; split; [done|lia]|].
  destruct (p (db_manifest db) db) as [[m|e1] db1| |] eqn:Ep; try discriminate;
    destruct (Hp _ _ eq_refl) as [Hm1 Ht1]; [|intros [= _ <-]; split; [done|lia]].
  rewrite wrap32_small by lia.
  destruct (save_updates _ _ _) as [[segs|e2] db2| |] eqn:Hs; try discriminate;
    pose proof (save_updates_manifest _ _ _ _ _ Hs) as Hm2;
    pose proof (save_updates_txid _ _ _ _ _ Hs) as Ht2; cbn in Hm2, Ht2;
    [|intros [= _ <-]; split; [congruence|lia]].
  unfold manifest_Save. munfold. cbn.
  destruct (fs_write _ _ _); cbn; [|intros [= _ <-]; split; [congruence|lia]].
  destruct (decFileRefs _ _) as [r3 db3| |] eqn:Hd; try discriminate.
  destruct (dec_names_ok _ _ _ _ Hd) as [-> _]. discriminate.
Qed.

Lemma commit_ok_ids_gen p db db' :
  commit p db = Done (Ok tt) db' ->
  exists m db1, p (db_manifest db) db = Done (Ok m) db1 /\
    m_ID (db_manifest db') = db_txid db' /\ db_txid db' = wrap32 (db_txid db1 + 1).
Proof.
  unfold commit. munfold. cbn.
  destruct (db_closed db); [discriminate|]. intros H.
  destruct (p (db_manifest db) db) as [[m|e] db1| |] eqn:Hp; try discriminate.
  exists m, db1. split; [done|].
  destruct (save_updates _ _ _) as [[segs|e] db2| |] eqn:Hs; try discriminate.
  pose proof (save_updates_txid _ _ _ _ _ Hs) as Ht2. cbn in Ht2.
  unfold manifest_Save in H. munfold. cbn in H.
  destruct (fs_write _ _ _); try discriminate. cbn in H.
  destruct (decFileRefs _ _) as [[[]|e] db3| |] eqn:Hd; try discriminate.
  injection H as <-. cbn. pose proof (dec_names_txid _ _ _ _ Hd) as Ht3. cbn in Ht3.
  split; congruence.
Qed.

Lemma closeSnapshot_keep s db r db' :
  closeSnapshot s db = Done r db' ->
  r = Ok tt /\ db_manifest db' = db_manifest db /\ db_txid db' = db_txid db.
Proof.
  unfold closeSnapshot, decFileRefs. unfold mbind at 1, M_bind at 1.
  destruct (dec_names _ db) as [r1 db1| |] eqn:E; [|discriminate|discriminate].
  destruct (dec_names_ok _ _ _ _ E) as (-> & Hm & Ht).
  munfold. intros [= <- <-]. destruct db1; simpl in *. split_and!; congruence.
Qed.

(** The two outcomes of [DB.Truncate] that return, for the ids. *)
Lemma Truncate_ids db r db' :
  0 <= db_txid db -> db_txid db + 1 < 2 ^ 32 ->
  Truncate db = Done r db' ->
  match r with
  | Ok _ => m_ID (db_manifest db') = db_txid db' /\ db_txid db' = db_txid db + 1
  | Err _ => db_manifest db' = db_manifest db /\ db_txid db <= db_txid db' <= db_txid db + 1
  end.
Proof.
  intros H0 Hb. unfold Truncate. unfold mbind at 1, M_bind at 1. rewrite newSnapshot_eq.
  unfold mbind at 1, M_bind at 1, attempt at 1.
  set (dbs := set_numSnapshots _ _).
  assert (Hms : db_manifest dbs = db_manifest db) by (destruct db; reflexivity).
  assert (Hts : db_txid dbs = db_txid db) by (destruct db; reflexivity).
  destruct (commit _ dbs) as [rc db2| |] eqn:Ec; [|discriminate|discriminate].
  unfold mbind, M_bind. destruct (closeSnapshot _ db2) as [[u|e] dbz| |] eqn:Ecl; try discriminate.
  - destruct (closeSnapshot_keep _ _ _ _ Ecl) as (_ & Hm & Ht).
    unfold lift. intros [= <- <-]. destruct rc as [[]|e].
    + destruct (commit_ok_ids_gen _ _ _ Ec) as (m & db1 & Hp & E1 & E2).
      cbn in Hp. injection Hp as _ <-. rewrite Hts, wrap32_small in E2 by lia.
      split; congruence.
    + apply commit_err_ids with (k := 0) in Ec as [Hm2 Ht2]; [split; [congruence|lia]| |lia|lia|lia].
      intros r db1 Hp. cbn in Hp. injection Hp as _ <-. split; [reflexivity|lia].
  - destruct (closeSnapshot_keep _ _ _ _ Ecl) as [? _]. discriminate.
Qed.

Lemma dec_names_keep names db R :
  (forall g, db_refs db g = R g + cnt g names) -> (forall g, g ∈ names -> 0 < R g) ->
  exists refs', dec_names names db = Done (Ok tt) (set_refs refs' db) /\ forall g, refs' g = R g.
Proof.
  revert db. induction names as [|f names IH]; intros db Hr Hp.
  - exists (db_refs db). split; [by destruct db|]. intros g. rewrite Hr. unfold cnt. simpl. lia.
  - simpl. munfold.
    set (db1 := set_refs (bump_ref (-1) f (db_refs db)) db).
    assert (Hr1 : forall g, db_refs db1 g = R g + cnt g names).
    { intros g. simpl. unfold bump_ref. rewrite Hr, cnt_cons. destruct (decide (g = f)) as [->|];
      [rewrite decide_True by done; lia|rewrite decide_False by congruence; lia]. }
    change (bump_ref (-1) f (db_refs db) f) with (db_refs db1 f).
    assert (Hf : 0 < R f) by (apply Hp; set_solver).
    pose proof (cnt_nonneg f names).
    rewrite decide_False by (rewrite Hr1; lia).
    destruct (IH db1) as (refs' & Hd & HR); [done|intros g Hg; apply Hp; set_solver|].
    rewrite Hd. exists refs'. split; [by destruct db|done].
Qed.

Lemma snapshot_round db :
  (forall g, cnt g (manifest_fileNames (db_manifest db)) <= db_refs db g) ->
  exists db2, closeSnapshot (mkSnapshot (db_manifest db))
    (set_numSnapshots (db_numSnapshots db + 1)
       (set_refs (add_refs (manifest_fileNames (db_manifest db)) (db_refs db)) db)) = Done (Ok tt) db2 /\
    db_closed db2 = db_closed db /\ db_manifest db2 = db_manifest db.
Proof.
  intros Hc. unfold closeSnapshot, decFileRefs. simpl.
  destruct (dec_names_keep (manifest_fileNames (db_manifest db))
              (set_numSnapshots (db_numSnapshots db + 1)
                 (set_refs (add_refs (manifest_fileNames (db_manifest db)) (db_refs db)) db))
              (db_refs db)) as (refs' & Hd & _).
  - intros g. simpl. apply add_refs_spec.
  - intros g Hg. pose proof (cnt_pos g _ Hg). specialize (Hc g). lia.
  - munfold. rewrite Hd. eexists. split; [reflexivity|]. by destruct db.
Qed.

Lemma closed_Transaction db : db_closed db = true -> Transaction db = Deadlock.
Proof.
  intros Hcl. unfold Transaction. unfold mbind at 1, M_bind at 1. rewrite newSnapshot_eq.
  munfold. simpl. by rewrite Hcl.
Qed.

Lemma closed_RunInTransaction fn db : db_closed db = true -> RunInTransaction fn db = Deadlock.
Proof.
  intros Hcl. unfold RunInTransaction. unfold mbind at 1, M_bind at 1. by rewrite closed_Transaction.
Qed.

Lemma search_keep q db :
  (forall g, cnt g (manifest_fileNames (db_manifest db)) <= db_refs db g) ->
  result_of (Search q db) = Some (Ok (search_manifest (db_manifest db) q)).
Proof.
  intros Hc. destruct (snapshot_round db Hc) as (db2 & Hs & _).
  unfold Search. unfold mbind at 1, M_bind at 1. rewrite newSnapshot_eq.
  unfold mbind, M_bind. rewrite Hs. reflexivity.
Qed.

Lemma closed_Truncate db :
  db_closed db = true ->
  (forall g, cnt g (manifest_fileNames (db_manifest db)) <= db_refs db g) ->
  result_of (Truncate db) = Some (Err ErrAlreadyClosed).
Proof.
  intros Hcl Hc. destruct (snapshot_round db Hc) as (db2 & Hs & _).
  unfold Truncate. unfold mbind at 1, M_bind at 1. rewrite newSnapshot_eq.
  unfold commit. munfold. simpl. rewrite Hcl. rewrite Hs. reflexivity.
Qed.

Lemma Close_ok db r db' :
  Close db = Done r db' ->
  r = Ok tt /\ db_closed db' = true /\ db_closing db' = true /\ db_mergeRequests db' = true /\
  db_orphanedFiles db' = true /\ db_wlock db' = false /\
  db_manifest db' = db_manifest db /\ db_refs db' = db_refs db /\ db_fs db' = db_fs db /\
  db_closing db = false /\ db_mergeRequests db = false /\ db_orphanedFiles db = false.
Proof.
  unfold Close, close_chan. munfold. destruct db as [fs wl tx m cl cg mr orph ns nt refs opts]; simpl.
  destruct cg, mr, orph; simpl; try discriminate. destruct wl; simpl; by intros [= <- <-].
Qed.

(** C5: the manifest ids of [db.commit], while the 32-bit [txid] does
    not wrap and the manifest id is not above [txid] (true of every DB
    [Open] builds and, by the clauses below, of every state after a commit
    or a [Truncate]).  A successful [Transaction.Commit] publishes a
    manifest whose id is the new [txid], above the previous manifest's
    id: [txid + 1] for a commit that creates no segment and [txid + 2] for
    one that does, since [createSegment] uses a transaction id of its own.
    A failed commit publishes nothing but may still take up to two ids.
    [Truncate]'s commit publishes manifest [txid + 1], and a failed one
    takes at most one id.  So ids increase strictly but are not
    contiguous. *)
Theorem commit_ids_increase tx db :
  0 <= m_ID (db_manifest db) <= db_txid db -> db_txid db + 2 < 2 ^ 32 ->
  (forall db', txn_Commit tx db = Done (Ok tt) db' ->
     m_ID (db_manifest db) < m_ID (db_manifest db') /\
     m_ID (db_manifest db') = db_txid db' /\
     m_ID (db_manifest db') = db_txid db + match buffer_items (tx_buf tx) with [] => 1 | _ => 2 end) /\
  (forall e db', txn_Commit tx db = Done (Err e) db' ->
     db_manifest db' = db_manifest db /\ db_txid db <= db_txid db' <= db_txid db + 2) /\
  (forall db', Truncate db = Done (Ok tt) db' ->
     m_ID (db_manifest db) < m_ID (db_manifest db') /\
     m_ID (db_manifest db') = db_txid db' /\ m_ID (db_manifest db') = db_txid db + 1) /\
  (forall e db', Truncate db = Done (Err e) db' ->
     db_manifest db' = db_manifest db /\ db_txid db <= db_txid db' <= db_txid db + 1).
Proof.
  intros H0 Hb. split_and!.
  - intros db' H. destruct (commit_ok_ids tx db db' H) as [E1 E2].
    destruct (buffer_items (tx_buf tx)).
    + rewrite wrap32_small in E2 by lia. lia.
    + rewrite (wrap32_small (db_txid db + 1)) in E2 by lia. rewrite wrap32_small in E2 by lia. lia.
  - intros e db'. unfold txn_Commit. destruct (tx_closed tx).
    + unfold throw. intros [= _ <-]. split; [done|lia].
    + intros H. apply commit_err_ids with (k := 1) in H as [Hm Ht]; [split; [done|lia]| |lia|lia|lia].
      intros r db1 Hp. destruct (prepare_keep _ _ _ _ _ Hp) as [Hm1 [Ht1|Ht1]]; split; [done|lia|done|].
      rewrite wrap32_small in Ht1 by lia. lia.
  - intros db' H. pose proof (Truncate_ids db (Ok tt) db' ltac:(lia) ltac:(lia) H) as [E1 E2]. lia.
  - intros e db' H. exact (Truncate_ids db (Err e) db' ltac:(lia) ltac:(lia) H).
Qed.

(** C6: after [Close], [Transaction] never returns: it finds
    [db.closed] set and calls [snapshot.Close()] while holding
    [db.mu.Lock()], and the [RLock] of [closeSnapshot] blocks for ever,
    where the code means to return [AlreadyClosed]; so [Add], [Delete]
    and [Import] hang too.  [Truncate] does return [AlreadyClosed];
    [Search] and [Snapshot] still answer from the last manifest (they
    never look at [closed]), and [Compact] panics (it sends on the closed
    [mergeRequests] channel).  The hypothesis on [refs] holds in every
    reachable state: the published manifest holds one reference to each
    of its files. *)
Theorem closed_db_calls db db' :
  Close db = Done (Ok tt) db' ->
  (forall g, cnt g (manifest_fileNames (db_manifest db)) <= db_refs db g) ->
  Transaction db' = Deadlock /\
  (forall d ts, DB_Add d ts db' = Deadlock) /\
  (forall d, DB_Delete d db' = Deadlock) /\
  (forall items, DB_Import items db' = Deadlock) /\
  result_of (Truncate db') = Some (Err ErrAlreadyClosed) /\
  (forall q, result_of (Search q db') = Some (Ok (search_manifest (db_manifest db) q))) /\
  result_of (DB_Snapshot db') = Some (Ok (mkSnapshot (db_manifest db))) /\
  (forall runOneMerge, Compact runOneMerge db' = Panic).
Proof.
  intros H Hc. destruct (Close_ok _ _ _ H) as (_ & Hcl & _ & Hmr & _ & _ & Hm & Hr & _).
  assert (Hc' : forall g, cnt g (manifest_fileNames (db_manifest db')) <= db_refs db' g)
    by (rewrite Hm, Hr; exact Hc).
  split; [by apply closed_Transaction|].
  split; [intros; by apply closed_RunInTransaction|].
  split; [intros; by apply closed_RunInTransaction|].
  split; [intros; by apply closed_RunInTransaction|].
  split; [by apply closed_Truncate|].
  split; [intros q; rewrite <- Hm; by apply search_keep|].
  split; [unfold DB_Snapshot; rewrite newSnapshot_eq; simpl; by rewrite Hm|].
  intros run. unfold Compact. by rewrite Hmr.
Qed.

(** C7: on a directory without a manifest file, [Open] with
    [create = false] fails (no DB), and with [create = true] it succeeds
    with an empty index of manifest id 0 on which every [Search] returns
    the empty map. *)
Theorem open_without_manifest fs opts :
  (forall i, fs_read fs (FManifest i) = None) ->
  Open fs false opts = Err (Wrap "failed to open the manifest"%string ErrNoManifest) /\
  exists db, Open fs true opts = Ok db /\ m_ID (db_manifest db) = 0 /\ m_Segments (db_manifest db) = [] /\
    forall q, result_of (Search q db) = Some (Ok (∅ : gmap Z Z)).
Proof.
  intros Hn.
  assert (Hx : max_id (manifest_ids (fs_files fs)) = None).
  { destruct (manifest_ids (fs_files fs)) as [|i l] eqn:E; [done|].
    assert (Hi : i ∈ manifest_ids (fs_files fs)) by (rewrite E; set_solver).
    apply manifest_ids_spec in Hi. unfold fs_read in Hn. rewrite Hn in Hi. by destruct Hi. }
  unfold Open, load_full, manifest_Load. rewrite Hx. split; [done|].
  eexists. split; [reflexivity|]. split; [done|]. split; [done|].
  intros q. match goal with |- result_of (Search q ?d) = _ =>
    destruct (Search_ok q d) as [db' Hs]; [reflexivity|rewrite Hs; reflexivity] end.
Qed.

(** C10: the first [Close] of a DB shuts it down and marks it closed; a
    second [Close] on the result panics (it closes the closed [closing]
    channel). *)
Theorem close_not_idempotent db :
  db_closing db = false -> db_mergeRequests db = false -> db_orphanedFiles db = false ->
  exists db', Close db = Done (Ok tt) db' /\ db_closed db' = true /\ Close db' = Panic.
Proof.
  destruct db as [fs wl tx m cl cg mr orph ns nt refs opts]; simpl. intros -> -> ->.
  unfold Close, close_chan. munfold. simpl.
  eexists. split; [reflexivity|]. by destruct wl.
Qed.

Lemma Transaction_open db :
  db_closed db = false -> (db_wlock db = true \/ fs_fails (db_fs db) FWriteLock = false) ->
  Transaction db = Done (Ok (mkTxn (mkSnapshot (db_manifest db)) [] [] false))
    (set_numTransactions (db_numTransactions db + 1)
      (set_wlock true (set_numSnapshots (db_numSnapshots db + 1)
        (set_refs (add_refs (manifest_fileNames (db_manifest db)) (db_refs db)) db)))).
Proof.
  intros Hc Hl. unfold Transaction. unfold mbind at 1, M_bind at 1. rewrite newSnapshot_eq.
  munfold. simpl. rewrite Hc.
  destruct db as [fs wl tx m cl cg mr orph ns nt refs opts]; simpl in *.
  destruct Hl as [->|Hf]; [reflexivity|]. destruct wl; [reflexivity|].
  unfold fs_lock. simpl. rewrite Hf. reflexivity.
Qed.

(** C9: when the transaction opens and the callback returns an error [e],
    [RunInTransaction] returns [e] without committing: the published
    manifest, [txid] and the directory are unchanged, the transaction is
    closed (the snapshot and transaction counters and the file references
    are back to their values before the call).  The callback works on the
    batch without replacing its snapshot or closing it, as the batch
    calls do. *)
Theorem run_in_transaction_abort fn e db :
  db_closed db = false ->
  (db_wlock db = true \/ fs_fails (db_fs db) FWriteLock = false) ->
  (forall g, cnt g (manifest_fileNames (db_manifest db)) <= db_refs db g) ->
  (forall tx, tx_closed tx = false -> snd (fn tx) = Err e) ->
  (forall tx, tx_snapshot (fst (fn tx)) = tx_snapshot tx /\ tx_closed (fst (fn tx)) = tx_closed tx) ->
  exists db', RunInTransaction fn db = Done (Err e) db' /\
    db_manifest db' = db_manifest db /\ db_txid db' = db_txid db /\ db_fs db' = db_fs db /\
    db_numSnapshots db' = db_numSnapshots db /\ db_numTransactions db' = db_numTransactions db /\
    (forall g, db_refs db' g = db_refs db g).
Proof.
  intros Hc Hl Hr Hfn Hkeep. unfold RunInTransaction. unfold mbind at 1, M_bind at 1.
  rewrite (Transaction_open db Hc Hl).
  set (tx0 := mkTxn (mkSnapshot (db_manifest db)) [] [] false).
  specialize (Hfn tx0 eq_refl). destruct (Hkeep tx0) as [Hs Hcl].
  destruct (fn tx0) as [tx' r] eqn:Hf. simpl in Hfn, Hs, Hcl. subst r.
  set (db2 := set_numTransactions _ _).
  destruct (dec_names_keep (manifest_fileNames (db_manifest db)) db2 (db_refs db)) as (refs' & Hd & HR).
  - intros g. subst db2. simpl. apply add_refs_spec.
  - intros g Hg. pose proof (cnt_pos g _ Hg). specialize (Hr g). lia.
  - unfold txn_Close. rewrite Hcl, Hs. unfold closeSnapshot, decFileRefs, closeTransaction. simpl.
    munfold. rewrite Hd. eexists. split; [reflexivity|]. simpl.
    split_and!; try done; lia.
Qed.

Lemma autoCompact_run_open st evs :
  ac_stopped st = false -> ac_panicked st = false -> forallb not_closing evs = true ->
  (forall k, (k <= failures evs)%nat -> 0 < Nat.iter k backoff (ac_interval st)) ->
  autoCompact_run st evs =
    mkAcState (Nat.iter (failures evs) backoff (ac_interval st)) (length evs + ac_requests st) false false.
Proof.
  unfold autoCompact_run, failures. revert st.
  induction evs as [|ev evs IH]; intros st Hs Hp Hn Hpos.
  - destruct st; simpl in *; by subst.
  - simpl in Hn. apply andb_prop in Hn as [Hev Hn]. simpl.
    destruct ev as [[err|]|]; [| |discriminate]; simpl in Hpos |- *;
      unfold autoCompact_step; rewrite Hs, Hp; simpl.
    + assert (H1 : 0 < backoff (ac_interval st)) by (apply (Hpos 1%nat); lia).
      unfold newTicker_panics. fold (backoff (ac_interval st)).
      replace (backoff (ac_interval st) <=? 0) with false by lia.
      rewrite IH; simpl; [|done|done|done|].
      * f_equal; [|lia]. rewrite <- Nat.iter_succ. symmetry. apply (Nat.iter_succ_r _ backoff).
      * intros k Hk. rewrite <- (Nat.iter_succ_r _ backoff). apply Hpos. lia.
    + rewrite IH; simpl; [|done|done|done|exact Hpos]. f_equal. lia.
Qed.

Lemma autoCompact_run_halted st evs :
  ac_stopped st || ac_panicked st = true -> autoCompact_run st evs = st.
Proof.
  unfold autoCompact_run. revert st. induction evs as [|ev evs IH]; intros st Hs; [done|].
  simpl. unfold autoCompact_step at 2. rewrite Hs. by apply IH.
Qed.

(** C8: the [autoCompact] task starts with [AutoCompactInterval]; every
    tick sends one compaction request; each failed compaction replaces
    the interval by [interval + interval / 2] (Go's truncating division,
    with [int64] wrap-around), a successful one leaves it alone.  While
    the interval stays positive, the task runs until [db.closing] is
    closed, and then stops for good.  A non-positive interval makes
    [time.NewTicker] panic: at the start when [AutoCompactInterval <= 0]
    (no request is ever sent), or at the failure whose backoff is not
    positive (after sending its request); the panic ends the program, so
    the task never reaches the close of [db.closing]. *)
Theorem autoCompact_schedule opts evs1 evs2 e :
  forallb not_closing evs1 = true ->
  (AutoCompactInterval opts <= 0 ->
     ac_panicked (autoCompact_start opts) = true /\
     forall evs, autoCompact_run (autoCompact_start opts) evs = autoCompact_start opts) /\
  ((forall k, (k <= failures evs1)%nat -> 0 < Nat.iter k backoff (AutoCompactInterval opts)) ->
   autoCompact_run (autoCompact_start opts) evs1 =
     mkAcState (Nat.iter (failures evs1) backoff (AutoCompactInterval opts)) (length evs1) false false /\
   autoCompact_run (autoCompact_start opts) (evs1 ++ Closing :: evs2) =
     mkAcState (Nat.iter (failures evs1) backoff (AutoCompactInterval opts)) (length evs1) true false /\
   (Nat.iter (S (failures evs1)) backoff (AutoCompactInterval opts) <= 0 ->
    autoCompact_run (autoCompact_start opts) (evs1 ++ Tick (Some e) :: evs2) =
      mkAcState (Nat.iter (S (failures evs1)) backoff (AutoCompactInterval opts))
        (S (length evs1)) false true)).
Proof.
  intros Hn. split.
  - intros Hle. assert (Hp : ac_panicked (autoCompact_start opts) = true).
    { unfold autoCompact_start, newTicker_panics. simpl. lia. }
    split; [exact Hp|]. intros evs. apply autoCompact_run_halted. by rewrite Hp, orb_true_r.
  - intros Hpos.
    assert (Hp0 : ac_panicked (autoCompact_start opts) = false).
    { unfold autoCompact_start, newTicker_panics. simpl. specialize (Hpos 0%nat ltac:(lia)). simpl in Hpos. lia. }
    pose proof (autoCompact_run_open (autoCompact_start opts) evs1 eq_refl Hp0 Hn Hpos) as H.
    simpl in H. rewrite Nat.add_0_r in H. split; [exact H|].
    unfold autoCompact_run in *. rewrite !fold_left_app, H. split.
    + simpl. apply autoCompact_run_halted. done.
    + intros Hneg. simpl. unfold autoCompact_step at 2. simpl.
      unfold newTicker_panics. fold (backoff (Nat.iter (failures evs1) backoff (AutoCompactInterval opts))).
      rewrite <- Nat.iter_succ. replace (_ <=? 0) with true by lia.
      apply autoCompact_run_halted. done.
Qed.


(** ** Witnesses and counterexamples of C5 to C10 *)

(** The first commit on a fresh DB ([TestDB_Commit_ConcurrentInserts]'s
    [tx1], which creates a segment) publishes manifest 2.  On a directory
    where manifest 2 cannot be written, the same commit fails after taking
    ids 1 and 2, and its retry publishes manifest 4.  A [Truncate] after
    [Add(1, [1])] publishes manifest 3. *)
Lemma commit_ids_increase_witness :
  m_ID (db_manifest ci_db1) = 2 /\
  (m_ID (db_manifest fresh_db) < m_ID (db_manifest ci_db1) /\
   m_ID (db_manifest ci_db1) = db_txid ci_db1 /\
   m_ID (db_manifest ci_db1) =
     db_txid fresh_db + match buffer_items (tx_buf ci_tx1) with [] => 1 | _ => 2 end) /\
  (db_manifest skip_db1 = db_manifest skip_db /\ db_txid skip_db1 = 2 /\
   db_txid skip_db <= db_txid skip_db1 <= db_txid skip_db + 2) /\
  (m_ID (db_manifest skip_db2) = 4 /\ m_ID (db_manifest skip_db1) < m_ID (db_manifest skip_db2)) /\
  (m_ID (db_manifest trunc_db) = 3 /\ m_ID (db_manifest trunc_db) = db_txid add1_db + 1).
Proof.
  assert (Hc : txn_Commit ci_tx1 fresh_db = Done (Ok tt) ci_db1)
    by (apply done_state_of; vm_compute; reflexivity).
  assert (Hf : txn_Commit ci_tx1 skip_db = Done (Err (Wrap "save failed" (ErrIO (FManifest 2)))) skip_db1)
    by (apply done_state_of; vm_compute; reflexivity).
  assert (Hr : txn_Commit ci_tx1 skip_db1 = Done (Ok tt) skip_db2)
    by (apply done_state_of; vm_compute; reflexivity).
  assert (Ht : Truncate add1_db = Done (Ok tt) trunc_db)
    by (apply done_state_of; vm_compute; reflexivity).
  assert (H1 : 0 <= m_ID (db_manifest skip_db1) <= db_txid skip_db1) by (vm_compute; split; discriminate).
  assert (H2 : db_txid skip_db1 + 2 < 2 ^ 32) by (vm_compute; reflexivity).
  assert (H3 : 0 <= m_ID (db_manifest add1_db) <= db_txid add1_db) by (vm_compute; split; discriminate).
  assert (H4 : db_txid add1_db + 2 < 2 ^ 32) by (vm_compute; reflexivity).
  split; [vm_compute; reflexivity|].
  split; [exact (proj1 (commit_ids_increase ci_tx1 fresh_db ltac:(simpl; lia) ltac:(simpl; lia)) ci_db1 Hc)|].
  split.
  { destruct (proj1 (proj2 (commit_ids_increase ci_tx1 skip_db ltac:(simpl; lia) ltac:(simpl; lia))) _ _ Hf)
      as [Hm Hb].
    split; [exact Hm|]. split; [vm_compute; reflexivity|exact Hb]. }
  split.
  { destruct (proj1 (commit_ids_increase ci_tx1 skip_db1 H1 H2) skip_db2 Hr) as (Hlt & _ & _).
    split; [vm_compute; reflexivity|exact Hlt]. }
  destruct (proj1 (proj2 (proj2 (commit_ids_increase ci_tx1 add1_db H3 H4))) trunc_db Ht) as (_ & _ & E).
  split; [vm_compute; reflexivity|exact E].
Defined.

(** C5's contiguity fails: on a fresh DB (manifest 0) one [Add(1, [1])]
    publishes manifest 2, its segment having taken id 1. *)
Lemma commit_ids_skip_one :
  Open empty_fs true None = Ok fresh_db /\
  m_ID (db_manifest fresh_db) = 0 /\
  result_of (DB_Add 1 [1] fresh_db) = Some (Ok tt) /\
  m_ID (db_manifest add1_db) = 2.
Proof. split_and!; vm_compute; reflexivity. Qed.

(** C6 on a DB closed right after creation. *)
Lemma closed_db_calls_witness :
  Transaction closed_db = Deadlock /\
  (forall d ts, DB_Add d ts closed_db = Deadlock) /\
  (forall d, DB_Delete d closed_db = Deadlock) /\
  (forall items, DB_Import items closed_db = Deadlock) /\
  result_of (Truncate closed_db) = Some (Err ErrAlreadyClosed) /\
  (forall q, result_of (Search q closed_db) = Some (Ok (search_manifest (db_manifest fresh_db) q))) /\
  result_of (DB_Snapshot closed_db) = Some (Ok (mkSnapshot (db_manifest fresh_db))) /\
  (forall runOneMerge, Compact runOneMerge closed_db = Panic).
Proof.
  apply (closed_db_calls fresh_db closed_db).
  - apply done_state_of. vm_compute. reflexivity.
  - intros g. unfold cnt. simpl. lia.
Defined.

(** C7 on an empty directory. *)
Lemma open_without_manifest_witness :
  Open empty_fs false None = Err (Wrap "failed to open the manifest"%string ErrNoManifest) /\
  exists db, Open empty_fs true None = Ok db /\ m_ID (db_manifest db) = 0 /\
    m_Segments (db_manifest db) = [] /\
    forall q, result_of (Search q db) = Some (Ok (∅ : gmap Z Z)).
Proof. apply (open_without_manifest empty_fs None). intros i. reflexivity. Defined.

(** C10 on a fresh DB. *)
Lemma close_not_idempotent_witness :
  exists db', Close fresh_db = Done (Ok tt) db' /\ db_closed db' = true /\ Close db' = Panic.
Proof. apply close_not_idempotent; reflexivity. Defined.

(** C9 on [DB.Add(0, [1])]: the batch call fails with [ErrInvalidDocID]. *)
Lemma run_in_transaction_abort_witness :
  DB_Add 0 [1] = RunInTransaction (batch_call (txn_Add 0 [1])) /\
  exists db', RunInTransaction (batch_call (txn_Add 0 [1])) fresh_db = Done (Err ErrInvalidDocID) db' /\
    db_manifest db' = db_manifest fresh_db /\ db_txid db' = db_txid fresh_db /\
    db_fs db' = db_fs fresh_db /\
    db_numSnapshots db' = db_numSnapshots fresh_db /\
    db_numTransactions db' = db_numTransactions fresh_db /\
    (forall g, db_refs db' g = db_refs fresh_db g).
Proof.
  split; [reflexivity|].
  apply (run_in_transaction_abort (batch_call (txn_Add 0 [1])) ErrInvalidDocID fresh_db).
  - reflexivity.
  - right. reflexivity.
  - intros g. unfold cnt. simpl. lia.
  - intros [s b p []] H; [discriminate|reflexivity].
  - intros [s b p []]; split; reflexivity.
Defined.

(** C8 with an interval of 3ns: fail, succeed, fail, then close; the
    interval goes 3, 4, 4, 6 and three requests are sent.  With an
    interval of 0 the task panics at once; with [2^63 - 1] the first
    failure wraps the interval negative and the task panics. *)
Lemma autoCompact_schedule_witness :
  autoCompact_run (autoCompact_start (mkOptions true 3))
    [Tick (Some ErrNoManifest); Tick None; Tick (Some ErrNoManifest)] = mkAcState 6 3 false false /\
  autoCompact_run (autoCompact_start (mkOptions true 3))
    ([Tick (Some ErrNoManifest); Tick None; Tick (Some ErrNoManifest)] ++ Closing :: [Tick None]) =
    mkAcState 6 3 true false /\
  autoCompact_run (autoCompact_start (mkOptions true 0)) [Tick None; Closing] = mkAcState 0 0 false true /\
  autoCompact_run (autoCompact_start (mkOptions true (2 ^ 63 - 1))) ([] ++ Tick (Some ErrNoManifest) :: [Closing]) =
    mkAcState (Nat.iter 1 backoff (2 ^ 63 - 1)) 1 false true.
Proof.
  destruct (autoCompact_schedule (mkOptions true 3)
              [Tick (Some ErrNoManifest); Tick None; Tick (Some ErrNoManifest)] [Tick None]
              ErrNoManifest eq_refl) as [_ H3].
  destruct H3 as (Ha & Hb & _).
  { intros k Hk. unfold failures in Hk. simpl in Hk. destruct k as [|[|[|k]]]; [vm_compute; reflexivity..|lia]. }
  split; [rewrite Ha; vm_compute; reflexivity|].
  split; [rewrite Hb; vm_compute; reflexivity|].
  destruct (autoCompact_schedule (mkOptions true 0) [] [] ErrNoManifest eq_refl) as [H0 _].
  assert (Hz : AutoCompactInterval (mkOptions true 0) <= 0) by (simpl; lia).
  destruct (H0 Hz) as [_ Hr].
  split; [rewrite Hr; reflexivity|].
  destruct (autoCompact_schedule (mkOptions true (2 ^ 63 - 1)) [] [Closing] ErrNoManifest eq_refl)
    as [_ Hw].
  destruct Hw as (_ & _ & Hw).
  { intros k Hk. unfold failures in Hk. simpl in Hk. destruct k; [simpl; lia|lia]. }
  apply Hw. vm_compute. congruence.
Defined.

(** C8's "exactly 1.5" fails for odd intervals: after one failed
    compaction an interval of 3ns becomes 4ns, not 4.5ns, and an interval
    of 1ns never grows; and with [AutoCompactInterval = 0] the task does
    not run until the DB closes: [time.NewTicker] panics at its start. *)
Lemma autoCompact_backoff_truncates :
  ac_interval (autoCompact_run (autoCompact_start (mkOptions true 3)) [Tick (Some ErrNoManifest)]) = 4 /\
  2 * 4 <> 3 * 3 /\
  ac_interval (autoCompact_run (autoCompact_start (mkOptions true 1))
                 [Tick (Some ErrNoManifest); Tick (Some ErrNoManifest)]) = 1 /\
  ac_panicked (autoCompact_run (autoCompact_start (mkOptions true 0)) [Tick None; Closing]) = true /\
  ac_stopped (autoCompact_run (autoCompact_start (mkOptions true 0)) [Tick None; Closing]) = false.
Proof. split_and!; vm_compute; try reflexivity; discriminate. Qed.

(* ================================================================== *)
(** * Further properties of [db.go] and [server.go]                    *)
(* ================================================================== *)


Section Keeps.
Variable P : DB -> DB -> Prop.
Hypothesis P_refl : forall db, P db db.
Hypothesis P_trans : forall a b c, P a b -> P b c -> P a c.

Lemma keeps_ret {A} (a : A) : keeps P (mret a).
Proof. intros db r db' [= _ <-]. apply P_refl. Qed.

Lemma keeps_bind {A B} (m : M A) (k : A -> M B) :
  keeps P m -> (forall a, keeps P (k a)) -> keeps P (m ≫= k).
Proof.
  intros Hm Hk db r db'. unfold mbind, M_bind.
  destruct (m db) as [[a|e] db1| |] eqn:E; [|intros [= _ <-]; eauto|discriminate|discriminate].
  intros H. eapply P_trans; [eapply Hm; exact E|]. eapply Hk; exact H.
Qed.

Lemma keeps_throw {A} e : keeps P (throw (A:=A) e).
Proof. intros db r db' [= _ <-]. apply P_refl. Qed.

Lemma keeps_gets {A} (f : DB -> A) : keeps P (gets f).
Proof. intros db r db' [= _ <-]. apply P_refl. Qed.

Lemma keeps_lift {A} (x : result A) : keeps P (lift x).
Proof. intros db r db' [= _ <-]. apply P_refl. Qed.

Lemma keeps_modify f : (forall db, P db (f db)) -> keeps P (modify f).
Proof. intros Hf db r db' [= _ <-]. apply Hf. Qed.

Lemma keeps_wrap_err {A} msg (m : M A) : keeps P m -> keeps P (wrap_err msg m).
Proof.
  intros Hm db r db'. unfold wrap_err.
  destruct (m db) as [[a|e] db1| |] eqn:E; intros H; try discriminate;
    injection H as _ <-; eauto.
Qed.

Lemma keeps_attempt {A} (m : M A) : keeps P m -> keeps P (attempt m).
Proof.
  intros Hm db r db'. unfold attempt.
  destruct (m db) as [r1 db1| |] eqn:E; intros H; [injection H as _ <-; eauto|discriminate|discriminate].
Qed.

Lemma keeps_write_file f c :
  (forall db fs, P db (set_fs fs db)) -> keeps P (write_file f c).
Proof.
  intros Hf db r db'. unfold write_file.
  destruct (fs_write f c (db_fs db)); intros [= _ <-]; auto.
Qed.

End Keeps.

Lemma same_counters_refl db : same_counters db db.
Proof. split; done. Qed.
Lemma same_counters_trans a b c : same_counters a b -> same_counters b c -> same_counters a c.
Proof. intros [] []; split; congruence. Qed.
Lemma same_view_refl db : same_view db db.
Proof. split; [done|apply same_counters_refl]. Qed.
Lemma same_view_trans a b c : same_view a b -> same_view b c -> same_view a c.
Proof. intros [] []; split; [congruence|eapply same_counters_trans; eauto]. Qed.


Lemma dec_names_view names : keeps same_view (dec_names names).
Proof.
  induction names as [|f names IH]; simpl.
  - apply keeps_ret, same_view_refl.
  - apply keeps_bind; [exact same_view_trans|..].
    + apply keeps_modify. intros db. split; [done|split; done].
    + intros []. apply keeps_bind; [exact same_view_trans|apply keeps_gets, same_view_refl|].
      intros r. apply keeps_bind; [exact same_view_trans| |intros []; exact IH].
      destruct (decide (r <= 0)).
      * intros db r' db'. unfold send_orphan. destruct (db_orphanedFiles db); [discriminate|].
        intros [= _ <-]. split; [done|split; done].
      * apply keeps_ret, same_view_refl.
Qed.

Lemma view_counters {A} (m : M A) : keeps same_view m -> keeps same_counters m.
Proof. intros H db r db' E. apply (H db r db' E). Qed.

Ltac kstep P :=
  first [ apply (keeps_bind P); [intros ? ? ? [] []; split; congruence| |intros ?]
        | apply (keeps_ret P); split; done
        | apply (keeps_gets P); split; done
        | apply (keeps_throw P); split; done
        | apply (keeps_lift P); split; done
        | apply (keeps_wrap_err P)
        | apply (keeps_attempt P)
        | apply (keeps_write_file P); intros; split; done
        | apply (keeps_modify P); intros; split; done ].

Lemma save_updates_counters id segs : keeps same_counters (save_updates id segs).
Proof.
  induction segs as [|s segs IH]; simpl; repeat kstep same_counters; try exact IH.
  unfold seg_SaveUpdate. destruct (seg_dirty s); repeat kstep same_counters.
Qed.

Lemma prepare_counters tx base : keeps same_counters (txn_prepareCommit tx base).
Proof.
  unfold txn_prepareCommit. destruct (buffer_items (tx_buf tx)); repeat kstep same_counters.
  unfold createSegment, CreateSegment. repeat kstep same_counters.
  intros db r db' [= _ <-]. split; done.
Qed.

Lemma commit_counters p :
  (forall base, keeps same_counters (p base)) -> keeps same_counters (commit p).
Proof.
  intros Hp. unfold commit. repeat kstep same_counters.
  destruct a; repeat kstep same_counters.
  - apply Hp.
  - intros db r db' [= _ <-]. split; done.
  - apply save_updates_counters.
  - apply view_counters, dec_names_view.
Qed.

Lemma txn_Commit_counters tx : keeps same_counters (txn_Commit tx).
Proof.
  unfold txn_Commit. destruct (tx_closed tx); [kstep same_counters|].
  apply commit_counters. apply prepare_counters.
Qed.

Lemma closeSnapshot_view s db r db' :
  closeSnapshot s db = Done r db' ->
  r = Ok tt /\ db_manifest db' = db_manifest db /\
  db_numSnapshots db' = db_numSnapshots db - 1 /\ db_numTransactions db' = db_numTransactions db.
Proof.
  unfold closeSnapshot, decFileRefs. unfold mbind at 1, M_bind at 1.
  destruct (dec_names _ db) as [r1 db1| |] eqn:E; [|discriminate|discriminate].
  pose proof (dec_names_no_err _ _ _ _ E) as ->.
  destruct (dec_names_view _ _ _ _ E) as (Hm & Hs & Ht).
  unfold modify. intros [= <- <-]. simpl. split_and!; congruence.
Qed.

Lemma txn_Close_view tx db r db' :
  tx_closed tx = false -> txn_Close tx db = Done r db' ->
  db_manifest db' = db_manifest db /\
  db_numSnapshots db' = db_numSnapshots db - 1 /\ db_numTransactions db' = db_numTransactions db - 1.
Proof.
  intros Hc. unfold txn_Close. rewrite Hc. unfold mbind at 1, M_bind at 1.
  destruct (closeSnapshot _ db) as [r1 db1| |] eqn:E; [|discriminate|discriminate].
  destruct (closeSnapshot_view _ _ _ _ E) as (-> & Hm & Hs & Ht).
  unfold closeTransaction. munfold. intros [= _ <-]. simpl. split_and!; congruence.
Qed.

Lemma Transaction_cases db r db1 :
  Transaction db = Done r db1 ->
  (r = Ok (mkTxn (mkSnapshot (db_manifest db)) [] [] false) /\ db_manifest db1 = db_manifest db /\
   db_numSnapshots db1 = db_numSnapshots db + 1 /\ db_numTransactions db1 = db_numTransactions db + 1) \/
  (exists e, r = Err e /\ same_view db db1).
Proof.
  unfold Transaction. unfold mbind at 1, M_bind at 1. rewrite newSnapshot_eq.
  destruct db as [fs wl tx m cl cg mr orph ns nt refs opts]. munfold.
  unfold set_numSnapshots, set_refs. simpl.
  destruct cl; [unfold closeSnapshot_locked; simpl; intros H; discriminate|].
  destruct wl; [intros [= <- <-]; left; simpl; split_and!; done|].
  simpl. destruct (fs_lock fs); [intros [= <- <-]; left; simpl; split_and!; done|].
  unfold closeSnapshot_locked. simpl. intros H; discriminate.
Qed.

Lemma RunInTransaction_counters fn db r db' :
  (forall tx, tx_closed tx = false -> tx_closed (fst (fn tx)) = false) ->
  RunInTransaction fn db = Done r db' -> same_counters db db'.
Proof.
  intros Hfn. unfold RunInTransaction. unfold mbind at 1, M_bind at 1.
  destruct (Transaction db) as [[tx|e] db1| |] eqn:Et; [| |discriminate|discriminate].
  2:{ intros [= _ <-]. destruct (Transaction_cases _ _ _ Et) as [([=] & _)|(? & _ & _ & H)]. exact H. }
  destruct (Transaction_cases _ _ _ Et) as [([= ->] & Hm1 & Hs1 & Ht1)|(? & [=] & _)].
  specialize (Hfn (mkTxn (mkSnapshot (db_manifest db)) [] [] false) eq_refl).
  destruct (fn _) as [tx' [u|e]]; simpl in Hfn.
  - unfold attempt, mbind, M_bind.
    destruct (txn_Commit tx' db1) as [res db2| |] eqn:Ec; [|discriminate|discriminate].
    destruct (txn_Commit_counters _ _ _ _ Ec) as [Hs2 Ht2].
    destruct (txn_Close tx' db2) as [[x|e] db3| |] eqn:Ecl; try discriminate.
    + destruct (txn_Close_view _ _ _ _ Hfn Ecl) as (_ & Hs3 & Ht3).
      unfold lift. intros [= _ <-]. split; lia.
    + pose proof (txn_Close_view _ _ _ _ Hfn Ecl). intros [= _ <-]. split; lia.
  - unfold mbind, M_bind.
    destruct (txn_Close tx' db1) as [[x|e'] db3| |] eqn:Ecl; try discriminate;
      destruct (txn_Close_view _ _ _ _ Hfn Ecl) as (_ & Hs3 & Ht3);
      unfold throw; intros [= _ <-]; split; lia.
Qed.

Lemma batch_call_open f :
  (forall tx tx', f tx = Ok tx' -> tx_closed tx' = false) ->
  forall tx, tx_closed tx = false -> tx_closed (fst (batch_call f tx)) = false.
Proof. intros Hf tx Hc. unfold batch_call. destruct (f tx) eqn:E; simpl; eauto. Qed.

Lemma txn_ops_open d ts items tx tx' :
  (txn_Add d ts tx = Ok tx' \/ txn_Delete d tx = Ok tx' \/ txn_Import items tx = Ok tx') ->
  tx_closed tx' = false.
Proof.
  unfold txn_Add, txn_Delete, txn_Import.
  destruct (tx_closed tx); [intros [|[|]]; discriminate|].
  intros [H|[H|H]]; [|by injection H as <-|by injection H as <-].
  destruct (d =? 0); [discriminate|]. case_bool_decide; [discriminate|].
  destruct (_ || _); by injection H as <-.
Qed.

(** X8: [DB.Add], [DB.Delete] and [DB.Import] leave the counts of open
    snapshots and open transactions as they found them, whether they
    succeed or fail: the transaction they open is always closed again. *)
Theorem batch_ops_release_counters d ts items db r db' :
  (DB_Add d ts db = Done r db' \/ DB_Delete d db = Done r db' \/ DB_Import items db = Done r db') ->
  db_numSnapshots db' = db_numSnapshots db /\ db_numTransactions db' = db_numTransactions db.
Proof.
  intros [H|[H|H]]; eapply RunInTransaction_counters; [|exact H| |exact H| |exact H];
    apply batch_call_open; intros tx tx' E; eapply (txn_ops_open d ts items); eauto.
Qed.

Lemma RunInTransaction_ok fn db db' :
  (forall tx, tx_closed tx = false -> tx_closed (fst (fn tx)) = false) ->
  RunInTransaction fn db = Done (Ok tt) db' ->
  exists tx' db1 db2,
    fn (mkTxn (mkSnapshot (db_manifest db)) [] [] false) = (tx', Ok tt) /\
    db_manifest db1 = db_manifest db /\
    txn_Commit tx' db1 = Done (Ok tt) db2 /\ db_manifest db' = db_manifest db2.
Proof.
  intros Hfn. unfold RunInTransaction. unfold mbind at 1, M_bind at 1.
  destruct (Transaction db) as [[tx|e] db1| |] eqn:Et; [|discriminate|discriminate|discriminate].
  destruct (Transaction_cases _ _ _ Et) as [([= ->] & Hm1 & Hs1 & Ht1)|(? & [=] & _)].
  specialize (Hfn (mkTxn (mkSnapshot (db_manifest db)) [] [] false) eq_refl).
  destruct (fn _) as [tx' [[]|e]] eqn:Ef; simpl in Hfn.
  - unfold attempt, mbind, M_bind.
    destruct (txn_Commit tx' db1) as [res db2| |] eqn:Ec; [|discriminate|discriminate].
    destruct (txn_Close tx' db2) as [[x|e] db3| |] eqn:Ecl; try discriminate.
    destruct (txn_Close_view _ _ _ _ Hfn Ecl) as (Hm3 & _ & _).
    unfold lift. intros [= -> <-]. exists tx', db1, db2. split_and!; done.
  - unfold mbind, M_bind.
    destruct (txn_Close tx' db1) as [[x|e'] db3| |]; discriminate.
Qed.

Lemma DB_Add_ok_segs d ts db db' :
  DB_Add d ts db = Done (Ok tt) db' ->
  d <> 0 /\ ts <> [] /\
  Forall2 seg_equiv (m_Segments (replace_doc (db_manifest db) d ts)) (m_Segments (db_manifest db')).
Proof.
  intros H. unfold DB_Add in H.
  destruct (RunInTransaction_ok _ _ _ (batch_call_open _
              (fun tx tx' E => txn_ops_open d ts [] tx tx' (or_introl E))) H)
    as (tx' & db1 & db2 & Hf & Hm1 & Hc & Hm2).
  unfold batch_call in Hf.
  destruct (txn_Add d ts _) as [tx''|e] eqn:Ha; [|discriminate]. injection Hf as ->.
  assert (Hd : d <> 0 /\ ts <> []).
  { unfold txn_Add in Ha. simpl in Ha. destruct (Z.eqb_spec d 0); [discriminate|].
    case_bool_decide; [discriminate|]. done. }
  split; [apply Hd|]. split; [apply Hd|].
  destruct (commit_single_add _ _ _ _ _ _ Ha Hc) as (seg & P & HP & HPne & Hi & Hdel & He).
  rewrite Hm2. eapply segs_equiv_trans; [|exact He]. rewrite Hm1. unfold replace_doc. simpl.
  apply Forall2_app.
  - apply segs_equiv_sym. by apply fold_tombstone_const.
  - constructor; [|constructor]. split; [by rewrite Hi|]. intros x. unfold seg_is_deleted. by rewrite Hdel.
Qed.

Lemma DB_Delete_ok_segs d db db' :
  DB_Delete d db = Done (Ok tt) db' ->
  Forall2 seg_equiv (tombstone (m_Segments (db_manifest db)) d) (m_Segments (db_manifest db')).
Proof.
  intros H. unfold DB_Delete in H.
  destruct (RunInTransaction_ok _ _ _ (batch_call_open _
              (fun tx tx' E => txn_ops_open d [] [] tx tx' (or_intror (or_introl E)))) H)
    as (tx' & db1 & db2 & Hf & Hm1 & Hc & Hm2).
  unfold batch_call, txn_Delete in Hf. simpl in Hf. injection Hf as <-.
  rewrite txn_Commit_open in Hc by done.
  destruct (commit_ok_inv _ _ _ Hc) as (_ & m & db3 & segs & db4 & Hp & Hs & Hm).
  unfold txn_prepareCommit in Hp. simpl in Hp. unfold mret, M_ret in Hp. injection Hp as <- _.
  rewrite Hm2, Hm. simpl. rewrite <- Hm1. eapply save_updates_equiv. exact Hs.
Qed.

Lemma seg_search_skip s d q acc :
  (forall it, In it (seg_items s) -> it.2 = d -> seg_is_deleted s d = true) ->
  seg_search s q acc !! d = acc !! d.
Proof.
  intros Hs. unfold seg_search. revert acc.
  induction q as [|t q IH]; intros acc; simpl; [done|].
  rewrite IH. unfold seg_search_term. clear IH.
  revert acc Hs. generalize (seg_items s) as l. induction l as [|it l IHl]; intros acc Hs; simpl; [done|].
  rewrite IHl by (intros it' Hin Heq; apply (Hs it'); [by right|done]).
  destruct (it.1 =? t); simpl; [|done].
  destruct (seg_is_deleted s it.2) eqn:Hdel; simpl; [done|].
  unfold count_hit. rewrite lookup_insert_ne; [done|].
  intros <-. rewrite (Hs it (or_introl eq_refl) eq_refl) in Hdel. discriminate.
Qed.

Lemma tomb1_skip d s it : In it (seg_items (tomb1 d s)) -> it.2 = d -> seg_is_deleted (tomb1 d s) d = true.
Proof.
  unfold tomb1. destruct (seg_Contains s d) eqn:Hc.
  - intros _ _. rewrite seg_is_deleted_Delete, Z.eqb_refl. apply orb_true_r.
  - intros Hin <-. unfold seg_Contains in Hc.
    assert (Hx : existsb (fun it0 : Item => it0.2 =? it.2) (seg_items s) = true).
    { apply existsb_exists. exists it. split; [done|apply Z.eqb_refl]. }
    pose proof (eq_trans (eq_sym Hx) Hc). discriminate.
Qed.

Lemma search_tombstone_absent i segs d q :
  search_manifest (mkManifest i (tombstone segs d)) q !! d = None.
Proof.
  unfold search_manifest. simpl. rewrite tombstone_map.
  assert (H : forall l (acc : gmap Z Z), acc !! d = None ->
            fold_left (fun acc s => seg_search s (sort_dedup q) acc) (map (tomb1 d) l) acc !! d = None).
  { induction l as [|s l IH]; intros acc Hacc; simpl; [done|].
    apply IH. rewrite seg_search_skip; [done|]. apply tomb1_skip. }
  apply H. apply lookup_empty.
Qed.

Lemma contains_equiv l l' x :
  Forall2 seg_equiv l l' ->
  existsb (fun s => seg_Contains s x) l = existsb (fun s => seg_Contains s x) l'.
Proof.
  induction 1 as [|s s' l l' [Hi _] _ IH]; simpl; [done|].
  unfold seg_Contains at 1 3. rewrite Hi. by rewrite IH.
Qed.

Lemma contains_tombstone l d x :
  existsb (fun s => seg_Contains s x) (tombstone l d) = existsb (fun s => seg_Contains s x) l.
Proof.
  rewrite tombstone_map. induction l as [|s l IH]; simpl; [done|]. rewrite IH.
  unfold tomb1. destruct (seg_Contains s d); [|done].
  unfold seg_Contains. by rewrite seg_items_Delete.
Qed.

(** X1: after a successful [DB.Add(d, ts)], every search of the published
    manifest gives what it gives on the old manifest with docID [d]
    tombstoned in every segment and a new segment holding [(t, d)] for
    each [t] of [ts] appended. *)
Theorem add_replaces_doc d ts db db' :
  DB_Add d ts db = Done (Ok tt) db' ->
  forall q, search_manifest (db_manifest db') q = search_manifest (replace_doc (db_manifest db) d ts) q.
Proof.
  intros H q. destruct (DB_Add_ok_segs d ts db db' H) as (_ & _ & He).
  symmetry. by apply search_manifest_equiv.
Qed.

(** X2: after a successful [DB.Add(d, ts)], [DB.Contains(d)] is true and
    [DB.NumSegments()] has grown by one. *)
Theorem add_contains d ts db db' :
  DB_Add d ts db = Done (Ok tt) db' ->
  DB_Contains d db' = true /\ NumSegments db' = NumSegments db + 1.
Proof.
  intros H. destruct (DB_Add_ok_segs d ts db db' H) as (_ & Hts & He). split.
  - unfold DB_Contains. rewrite <- (contains_equiv _ _ _ He). unfold replace_doc. simpl.
    rewrite existsb_app. apply orb_true_iff. right. simpl. rewrite orb_false_r.
    destruct (buffer_items_single d ts Hts) as [Hne Hall]. unfold seg_Contains. simpl.
    destruct (buffer_items [(d, ts)]) as [|it its]; [done|]. inversion Hall; subst.
    simpl. by rewrite Z.eqb_refl.
  - unfold NumSegments. rewrite <- (Forall2_length _ _ _ He). unfold replace_doc. simpl.
    rewrite length_app, tombstone_map, length_map. simpl. lia.
Qed.

(** X3: after a successful [DB.Delete(d)], every search of the published
    manifest gives what it gives on the old segments with [d]
    tombstoned, and no search result holds docID [d]. *)
Theorem delete_removes_doc d db db' :
  DB_Delete d db = Done (Ok tt) db' ->
  forall q, search_manifest (db_manifest db') q =
              search_manifest (mkManifest (m_ID (db_manifest db)) (tombstone (m_Segments (db_manifest db)) d)) q /\
            search_manifest (db_manifest db') q !! d = None.
Proof.
  intros H q. pose proof (DB_Delete_ok_segs d db db' H) as He.
  assert (E : search_manifest (db_manifest db') q =
              search_manifest (mkManifest (m_ID (db_manifest db)) (tombstone (m_Segments (db_manifest db)) d)) q).
  { symmetry. by apply search_manifest_equiv. }
  split; [done|]. rewrite E. apply search_tombstone_absent.
Qed.

(** X4: a successful [DB.Delete(d)] changes neither [DB.Contains(x)] for
    any [x] nor [DB.NumSegments()]: the docID stays among the segments'
    items, only marked deleted. *)
Theorem delete_keeps_contains d db db' :
  DB_Delete d db = Done (Ok tt) db' ->
  (forall x, DB_Contains x db' = DB_Contains x db) /\ NumSegments db' = NumSegments db.
Proof.
  intros H. pose proof (DB_Delete_ok_segs d db db' H) as He. split.
  - intros x. unfold DB_Contains. rewrite <- (contains_equiv _ _ _ He). apply contains_tombstone.
  - unfold NumSegments. rewrite <- (Forall2_length _ _ _ He). by rewrite tombstone_map, length_map.
Qed.

(** X6: on an open or closed DB whose reference counts cover the files of
    its manifest, [DB.Search(q)] returns the search of the published
    manifest and leaves the DB as it was, with the same reference counts. *)
Theorem search_read_only q db :
  (forall g, cnt g (manifest_fileNames (db_manifest db)) <= db_refs db g) ->
  exists refs', Search q db = Done (Ok (search_manifest (db_manifest db) q)) (set_refs refs' db) /\
    forall g, refs' g = db_refs db g.
Proof.
  intros Hc. unfold Search. unfold mbind at 1, M_bind at 1. rewrite newSnapshot_eq.
  unfold closeSnapshot, decFileRefs. simpl.
  set (db1 := set_numSnapshots _ _).
  destruct (dec_names_keep (manifest_fileNames (db_manifest db)) db1 (db_refs db)) as (refs' & Hd & HR).
  - intros g. subst db1. simpl. apply add_refs_spec.
  - intros g Hg. pose proof (cnt_pos g _ Hg). specialize (Hc g). lia.
  - munfold. rewrite Hd. exists refs'. split; [|done]. subst db1.
    destruct db. unfold set_numSnapshots, set_refs. simpl. by rewrite Z.add_simpl_r.
Qed.

(** X7: on an open DB that does not hold the write lock yet, when taking
    the write lock fails, [Transaction] never returns: it calls
    [snapshot.Close()] while holding [db.mu.Lock()], and the [RLock] of
    [closeSnapshot] blocks for ever.  So [RunInTransaction], and with it
    [Add], [Delete] and [Import], hang without calling the function. *)
Theorem lock_failure_deadlocks fn db :
  db_closed db = false -> db_wlock db = false -> fs_fails (db_fs db) FWriteLock = true ->
  Transaction db = Deadlock /\ RunInTransaction fn db = Deadlock.
Proof.
  intros Hcl Hwl Hf.
  assert (Ht : Transaction db = Deadlock).
  { unfold Transaction. unfold mbind at 1, M_bind at 1. rewrite newSnapshot_eq.
    destruct db as [fs wl tx m cl cg mr orph ns nt refs opts]. simpl in *. subst cl wl.
    munfold. simpl. unfold fs_lock. rewrite Hf. reflexivity. }
  split; [exact Ht|]. unfold RunInTransaction. unfold mbind at 1, M_bind at 1. by rewrite Ht.
Qed.

Lemma filter_own_ids l :
  List.filter (fun s => negb (existsb (fun s' => seg_ID s' =? seg_ID s) l)) l = [].
Proof.
  assert (H : forall l', (forall s, In s l' -> In s l) ->
            List.filter (fun s => negb (existsb (fun s' => seg_ID s' =? seg_ID s) l)) l' = []).
  { induction l' as [|s l' IH]; intros Hin; simpl; [done|].
    assert (Hx : existsb (fun s' => seg_ID s' =? seg_ID s) l = true).
    { apply existsb_exists. exists s. split; [apply Hin; left; done|apply Z.eqb_refl]. }
    rewrite Hx. simpl. apply IH. intros s' Hs'. apply Hin. by right. }
  by apply H.
Qed.

(** X5: after a successful [DB.Truncate()], the DB has no segments,
    contains no docID, and every search gives the empty result. *)
Theorem truncate_empties db db' :
  Truncate db = Done (Ok tt) db' ->
  NumSegments db' = 0 /\ (forall d, DB_Contains d db' = false) /\
  forall q, search_manifest (db_manifest db') q = ∅.
Proof.
  unfold Truncate. unfold mbind at 1, M_bind at 1. rewrite newSnapshot_eq.
  unfold mbind at 1, M_bind at 1, attempt at 1.
  destruct (commit _ _) as [r db2| |] eqn:Ec; [|discriminate|discriminate].
  unfold mbind, M_bind. destruct (closeSnapshot _ db2) as [[u|e] dbz| |] eqn:Ecl; try discriminate.
  unfold lift. intros [= -> <-].
  destruct (closeSnapshot_view _ _ _ _ Ecl) as (_ & Hm & _).
  destruct (commit_ok_inv _ _ _ Ec) as (_ & m & db3 & segs & db4 & Hp & Hs & Hm4).
  simpl in Hp. unfold mret, M_ret in Hp. injection Hp as <- _. simpl in Hs.
  rewrite filter_own_ids in Hs. simpl in Hs. unfold mret, M_ret in Hs. injection Hs as <- _.
  assert (E : m_Segments (db_manifest dbz) = []) by (rewrite Hm, Hm4; done).
  unfold NumSegments, DB_Contains. rewrite E. split; [done|]. split; [done|].
  intros q. unfold search_manifest. by rewrite E.
Qed.

(** X11: for an interval [i] with [0 <= i < 2^62], the backoff
    [i + i/2] of [autoCompact] is at least [i], and equal to [i] exactly
    when [i < 2]: an interval of 1 never grows. *)
Theorem backoff_growth i :
  0 <= i < 2 ^ 62 -> i <= backoff i /\ (backoff i = i <-> i < 2).
Proof.
  intros Hi. unfold backoff, wrap64.
  rewrite Z.quot_div_nonneg by lia.
  pose proof (Z.div_pos i 2 ltac:(lia) ltac:(lia)).
  assert (Hd : i / 2 <= i) by (apply Z.div_le_upper_bound; lia).
  rewrite Z.mod_small by lia.
  assert (E : i / 2 = 0 <-> i < 2).
  { split; intros H1. - apply Z.div_small_iff in H1; lia. - apply Z.div_small; lia. }
  split; [lia|]. split; intros H1; [apply E; lia|]. apply E in H1. lia.
Qed.

(** X12: when [i + i/2] passes [2^63 - 1], the failed-compaction backoff
    of [autoCompact] wraps around, the new interval is negative, and the
    [time.NewTicker] call that follows panics. *)
Theorem backoff_overflow st e :
  ac_stopped st = false -> ac_panicked st = false -> 0 < ac_interval st < 2 ^ 63 ->
  2 ^ 63 <= ac_interval st + Z.quot (ac_interval st) 2 ->
  ac_interval (autoCompact_step st (Tick (Some e))) =
    ac_interval st + Z.quot (ac_interval st) 2 - 2 ^ 64 /\
  ac_interval (autoCompact_step st (Tick (Some e))) < 0 /\
  ac_panicked (autoCompact_step st (Tick (Some e))) = true.
Proof.
  intros Hs Hp Hi Hge. unfold autoCompact_step, newTicker_panics. rewrite Hs, Hp. simpl. unfold wrap64.
  set (i := ac_interval st) in *.
  rewrite Z.quot_div_nonneg in * by lia.
  assert (Hd2 : i / 2 < 2 ^ 62) by (apply Z.div_lt_upper_bound; lia).
  rewrite <- (Z.mod_unique (i + i / 2 + 2 ^ 63) (2 ^ 64) 1 (i + i / 2 + 2 ^ 63 - 2 ^ 64)) by lia.
  split_and!; lia.
Qed.

Lemma open_segments_first fs pre s post e :
  (forall s', In s' pre -> exists s'', seg_Open fs s' = Ok s'') -> seg_Open fs s = Err e ->
  open_segments fs (pre ++ s :: post) =
    Err (Wrap ("failed to open segment " +:+ pretty (seg_ID s))%string e).
Proof.
  intros Hpre Hs. induction pre as [|s0 pre IH]; simpl.
  - by rewrite Hs.
  - destruct (Hpre s0 (or_introl eq_refl)) as [s1 ->].
    rewrite IH; [done|]. intros s' Hin. apply Hpre. by right.
Qed.

(** X9: [Open] fails with ["failed to open segment <ID>"], naming the ID
    of the first segment of the manifest that cannot be opened and
    wrapping its error. *)
Theorem open_segment_failure fs c opts m pre s post e :
  manifest_Load fs c = Ok m -> m_Segments m = pre ++ s :: post ->
  (forall s', In s' pre -> exists s'', seg_Open fs s' = Ok s'') ->
  seg_Open fs s = Err e ->
  Open fs c opts = Err (Wrap ("failed to open segment " +:+ pretty (seg_ID s))%string e).
Proof.
  intros Hl Hm Hpre Hs. unfold Open, load_full. rewrite Hl, Hm.
  by rewrite (open_segments_first fs pre s post e Hpre Hs).
Qed.


(** ** The [/index] handler *)

Lemma check_docs_ok docs : check_docs docs = None <-> forallb doc_ok docs = true.
Proof.
  induction docs as [|doc docs IH]; simpl; [done|].
  unfold doc_ok. destruct (doc_ID doc =? 0), (Nat.eqb (length (doc_Hashes doc)) 0); simpl; split; try done.
  all: try (intros H; discriminate). all: exact (proj1 IH) || exact (proj2 IH).
Qed.

Lemma check_docs_first pre doc post :
  forallb doc_ok pre = true -> doc_ok doc = false ->
  check_docs (pre ++ doc :: post) =
    Some (if Z.eqb (doc_ID doc) 0 then "missing ID"%string else "missing hashes"%string).
Proof.
  intros Hpre Hdoc. induction pre as [|d0 pre IH]; simpl.
  - unfold doc_ok in Hdoc. destruct (doc_ID doc =? 0); [done|].
    simpl in Hdoc. destruct (Nat.eqb (length (doc_Hashes doc)) 0); [done|discriminate].
  - simpl in Hpre. apply andb_prop in Hpre as [H0 Hpre]. unfold doc_ok in H0.
    destruct (doc_ID d0 =? 0); [discriminate|]. destruct (Nat.eqb (length (doc_Hashes d0)) 0); [discriminate|].
    apply IH. exact Hpre.
Qed.

(** X13: a POST whose docs pass the checks up to one with a zero ID or no
    hashes is answered 400 with ["missing ID"] or ["missing hashes"]
    for that doc, and no doc is added to the index. *)
Theorem post_rejects_invalid docs pre doc post :
  docs = pre ++ doc :: post -> forallb doc_ok pre = true -> doc_ok doc = false ->
  index_ServeHTTP (mkRequest "POST" (Some docs)) =
    (writeErrorResponse 400 (if doc_ID doc =? 0 then "missing ID" else "missing hashes"), []).
Proof.
  intros -> Hpre Hdoc. unfold index_ServeHTTP, ServePOST. simpl.
  rewrite length_app. simpl. rewrite Nat.add_succ_r. simpl.
  by rewrite check_docs_first.
Qed.

(** X14: a POST with a non-empty list of docs that all have a non-zero ID
    and some hashes is answered 200 [{"status":"ok"}] and adds every doc,
    in order. *)
Theorem post_adds_all docs :
  docs <> [] -> forallb doc_ok docs = true ->
  index_ServeHTTP (mkRequest "POST" (Some docs)) =
    (writeResponse 200 status_ok, map (fun doc => (doc_ID doc, doc_Hashes doc)) docs).
Proof.
  intros Hne Hok. unfold index_ServeHTTP, ServePOST. simpl.
  rewrite (proj2 (check_docs_ok _) Hok). by destruct docs.
Qed.

(** X15: the [/index] handler calls [Index.Add] only for a POST whose
    decoded docs are non-empty and all valid, and then exactly once per
    doc, in order. *)
Theorem index_calls_only_valid_post r :
  snd (index_ServeHTTP r) <> [] ->
  req_Method r = "POST"%string /\
  exists docs, req_Docs r = Some docs /\ docs <> [] /\ forallb doc_ok docs = true /\
    snd (index_ServeHTTP r) = map (fun doc => (doc_ID doc, doc_Hashes doc)) docs.
Proof.
  unfold index_ServeHTTP. intros H.
  destruct (String.eqb_spec (req_Method r) "GET"); [by contradict H|].
  destruct (String.eqb_spec (req_Method r) "POST") as [Hp|];
    [|destruct (String.eqb (req_Method r) "DELETE"); by contradict H].
  split; [done|]. unfold ServePOST in *. destruct (req_Docs r) as [docs|]; [|by contradict H].
  destruct (Nat.eqb_spec (length docs) 0) as [Hl|Hl]; [by contradict H|].
  destruct (check_docs docs) eqn:Hc; [by contradict H|].
  exists docs. split; [done|]. split; [intros ->; done|]. split; [by apply check_docs_ok|done].
Qed.

(** X16: a request other than POST adds nothing: GET and DELETE are
    answered 200 [{"status":"ok"}], every other method 405. *)
Theorem non_post_methods r :
  req_Method r <> "POST"%string ->
  index_ServeHTTP r =
    (if String.eqb (req_Method r) "GET" || String.eqb (req_Method r) "DELETE"
     then writeResponse 200 status_ok
     else writeErrorResponse 405 "only methods GET, POST and DELETE are allowed", []).
Proof.
  intros Hp. unfold index_ServeHTTP. destruct (String.eqb (req_Method r) "GET"); [done|].
  rewrite (proj2 (String.eqb_neq _ _) Hp). simpl. by destruct (String.eqb (req_Method r) "DELETE").
Qed.

(** ** Instances *)

Lemma add_replaces_doc_witness :
  DB_Add 1 [1] fresh_db = Done (Ok tt) add1_db /\
  search_manifest (db_manifest add1_db) [1] = ({[1 := 1]} : gmap Z Z) /\
  forall q, search_manifest (db_manifest add1_db) q = search_manifest (replace_doc (db_manifest fresh_db) 1 [1]) q.
Proof.
  assert (H : DB_Add 1 [1] fresh_db = Done (Ok tt) add1_db) by (apply done_state_of; vm_compute; reflexivity).
  split; [exact H|]. split; [vm_compute; reflexivity|]. exact (add_replaces_doc 1 [1] fresh_db add1_db H).
Defined.

Lemma add_contains_witness :
  DB_Add 1 [1] fresh_db = Done (Ok tt) add1_db /\
  DB_Contains 1 add1_db = true /\ NumSegments add1_db = NumSegments fresh_db + 1.
Proof.
  assert (H : DB_Add 1 [1] fresh_db = Done (Ok tt) add1_db) by (apply done_state_of; vm_compute; reflexivity).
  split; [exact H|]. exact (add_contains 1 [1] fresh_db add1_db H).
Defined.

Lemma delete_removes_doc_witness :
  DB_Delete 1 add1_db = Done (Ok tt) del1_db /\
  search_manifest (db_manifest add1_db) [1] = ({[1 := 1]} : gmap Z Z) /\
  forall q, search_manifest (db_manifest del1_db) q =
              search_manifest (mkManifest (m_ID (db_manifest add1_db)) (tombstone (m_Segments (db_manifest add1_db)) 1)) q /\
            search_manifest (db_manifest del1_db) q !! 1 = None.
Proof.
  assert (H : DB_Delete 1 add1_db = Done (Ok tt) del1_db) by (apply done_state_of; vm_compute; reflexivity).
  split; [exact H|]. split; [vm_compute; reflexivity|]. exact (delete_removes_doc 1 add1_db del1_db H).
Defined.

Lemma delete_keeps_contains_witness :
  DB_Delete 1 add1_db = Done (Ok tt) del1_db /\ DB_Contains 1 add1_db = true /\
  (forall x, DB_Contains x del1_db = DB_Contains x add1_db) /\ NumSegments del1_db = NumSegments add1_db.
Proof.
  assert (H : DB_Delete 1 add1_db = Done (Ok tt) del1_db) by (apply done_state_of; vm_compute; reflexivity).
  split; [exact H|]. split; [vm_compute; reflexivity|]. exact (delete_keeps_contains 1 add1_db del1_db H).
Defined.

Lemma truncate_empties_witness :
  Truncate add1_db = Done (Ok tt) trunc_db /\ NumSegments add1_db = 1 /\
  NumSegments trunc_db = 0 /\ (forall d, DB_Contains d trunc_db = false) /\
  forall q, search_manifest (db_manifest trunc_db) q = ∅.
Proof.
  assert (H : Truncate add1_db = Done (Ok tt) trunc_db) by (apply done_state_of; vm_compute; reflexivity).
  split; [exact H|]. split; [vm_compute; reflexivity|]. exact (truncate_empties add1_db trunc_db H).
Defined.

Lemma search_read_only_witness :
  search_manifest (db_manifest add1_reopened) [1] = ({[1 := 1]} : gmap Z Z) /\
  exists refs', Search [1] add1_reopened =
      Done (Ok (search_manifest (db_manifest add1_reopened) [1])) (set_refs refs' add1_reopened) /\
    forall g, refs' g = db_refs add1_reopened g.
Proof.
  split; [vm_compute; reflexivity|]. apply search_read_only.
  intros g. unfold add1_reopened, init. cbn -[add_refs manifest_fileNames]. rewrite add_refs_spec. lia.
Defined.

Lemma lock_failure_deadlocks_witness :
  Transaction locked_db = Deadlock /\ RunInTransaction (batch_call (txn_Add 1 [1])) locked_db = Deadlock.
Proof. apply lock_failure_deadlocks; [reflexivity|reflexivity|vm_compute; reflexivity]. Defined.

Lemma batch_ops_release_counters_witness :
  DB_Add 1 [1] fresh_db = Done (Ok tt) add1_db /\
  db_numSnapshots add1_db = db_numSnapshots fresh_db /\ db_numTransactions add1_db = db_numTransactions fresh_db.
Proof.
  assert (H : DB_Add 1 [1] fresh_db = Done (Ok tt) add1_db) by (apply done_state_of; vm_compute; reflexivity).
  split; [exact H|]. exact (batch_ops_release_counters 1 [1] [] fresh_db (Ok tt) add1_db (or_introl H)).
Defined.

Lemma open_segment_failure_witness :
  Open lost_seg_fs false None = Err (Wrap "failed to open segment 1" (ErrNotFound (FSegData 1))).
Proof.
  assert (Hp : ("failed to open segment " +:+ pretty (seg_ID (mkSegment 1 1 [] [] false)))%string =
               "failed to open segment 1"%string) by (vm_compute; reflexivity).
  rewrite <- Hp.
  apply (open_segment_failure lost_seg_fs false None (mkManifest 1 [mkSegment 1 1 [] [] false])
           [] (mkSegment 1 1 [] [] false) []); try reflexivity.
  intros s' [].
Defined.


Lemma backoff_growth_witness :
  backoff 3 = 4 /\ (3 <= backoff 3 /\ (backoff 3 = 3 <-> 3 < 2)) /\ (1 <= backoff 1 /\ (backoff 1 = 1 <-> 1 < 2)).
Proof.
  split; [vm_compute; reflexivity|]. split; apply backoff_growth; lia.
Defined.

Lemma backoff_overflow_witness :
  ac_interval (autoCompact_step (mkAcState (2 ^ 63 - 1) 0 false false) (Tick (Some ErrNoManifest))) =
    (2 ^ 63 - 1) + Z.quot (2 ^ 63 - 1) 2 - 2 ^ 64 /\
  ac_interval (autoCompact_step (mkAcState (2 ^ 63 - 1) 0 false false) (Tick (Some ErrNoManifest))) < 0 /\
  ac_panicked (autoCompact_step (mkAcState (2 ^ 63 - 1) 0 false false) (Tick (Some ErrNoManifest))) = true.
Proof.
  apply (backoff_overflow (mkAcState (2 ^ 63 - 1) 0 false false));
    simpl; [reflexivity|reflexivity|lia|vm_compute; discriminate].
Defined.

Lemma post_rejects_invalid_witness :
  index_ServeHTTP (mkRequest "POST" (Some [mkDoc 1 [2]; mkDoc 0 [3]])) =
    (writeErrorResponse 400 (if Z.eqb (doc_ID (mkDoc 0 [3])) 0 then "missing ID" else "missing hashes"), []).
Proof. apply (post_rejects_invalid _ [mkDoc 1 [2]] (mkDoc 0 [3]) []); reflexivity. Defined.

Lemma post_adds_all_witness :
  index_ServeHTTP (mkRequest "POST" (Some [mkDoc 1 [2; 3]; mkDoc 2 [4]])) =
    (writeResponse 200 status_ok, [(1, [2; 3]); (2, [4])]).
Proof. apply (post_adds_all [mkDoc 1 [2; 3]; mkDoc 2 [4]]); [discriminate|reflexivity]. Defined.

Lemma index_calls_only_valid_post_witness :
  req_Method (mkRequest "POST" (Some [mkDoc 1 [2]])) = "POST"%string /\
  exists docs, req_Docs (mkRequest "POST" (Some [mkDoc 1 [2]])) = Some docs /\ docs <> [] /\
    forallb doc_ok docs = true /\
    snd (index_ServeHTTP (mkRequest "POST" (Some [mkDoc 1 [2]]))) = map (fun doc => (doc_ID doc, doc_Hashes doc)) docs.
Proof. apply index_calls_only_valid_post. vm_compute. discriminate. Defined.

Lemma non_post_methods_witness :
  index_ServeHTTP (mkRequest "DELETE" (Some [mkDoc 1 [2]])) = (writeResponse 200 status_ok, []) /\
  index_ServeHTTP (mkRequest "PUT" None) =
    (writeErrorResponse 405 "only methods GET, POST and DELETE are allowed", []).
Proof. split; [apply (non_post_methods (mkRequest "DELETE" _))|apply (non_post_methods (mkRequest "PUT" _))]; discriminate. Defined.
